(** * MongoDBBaseStore: a shallow embedding of [linkedin_news_post/mongo_store.py]

    The development follows the Python module top to bottom: the text
    extraction helper [get_text_at_path], the store object built by
    [__init__], the query builders, and the operations [get], [search],
    [put], [delete], [list_namespaces] and [batch], run against a model of
    the MongoDB collection they talk to.

    Conventions.
    - Python [str] is [string]; [str.strip] trims the ASCII white space
      characters (the code points 9-13, 28-31 and 32).
    - A [datetime] is a number of microseconds on the UTC time line and a
      TTL is a whole number of minutes.
    - [limit], [offset], [max_depth] and [k] are counts, hence [nat].
    - The collection is the list of its documents in natural (insertion)
      order; [find_one], [update_one] and [delete_one] act on the first
      document that matches.  Documents leave it through [delete_one] only:
      the server's TTL monitor is not part of the model.
    - Calls to the server succeed, except for the [aggregate] of [search],
      which may raise [OperationFailure]; the function under ["embed"]
      returns a vector for every text. *)

From Stdlib Require Import Bool Arith ZArith QArith Lia List Ascii String.
From Stdlib Require Import Sorting.Sorted Sorting.Permutation Sorting.Mergesort.
From Stdlib Require Import Orders.
Import ListNotations.

Set Warnings "-register-all".
Close Scope Q_scope.
Local Open Scope nat_scope.
Local Open Scope string_scope.
Local Open Scope list_scope.

(** ** Python strings *)

Module PyStr.

Definition is_space (c : ascii) : bool :=
  let n := nat_of_ascii c in
  (Nat.leb 9 n && Nat.leb n 13) || (Nat.leb 28 n && Nat.leb n 32).

Fixpoint lstrip (s : string) : string :=
  match s with
  | EmptyString => EmptyString
  | String c r => if is_space c then lstrip r else s
  end.

Fixpoint rstrip (s : string) : string :=
  match s with
  | EmptyString => EmptyString
  | String c r =>
      match rstrip r with
      | EmptyString => if is_space c then EmptyString else String c EmptyString
      | r' => String c r'
      end
  end.

(** [s.strip()] *)
Definition strip (s : string) : string := rstrip (lstrip s).

(** truth value of a [str]: non-empty *)
Definition truthy (s : string) : bool :=
  match s with EmptyString => false | String _ _ => true end.

(** [s.split(sep)] for a one-character separator *)
Fixpoint split (sep : ascii) (s : string) : list string :=
  match s with
  | EmptyString => [EmptyString]
  | String c r =>
      if Ascii.eqb c sep then EmptyString :: split sep r
      else match split sep r with
           | [] => [String c EmptyString]
           | h :: t => String c h :: t
           end
  end.

(** [sep.join(parts)] *)
Definition join (sep : string) (parts : list string) : string :=
  String.concat sep parts.

End PyStr.

(** ** JSON-like Python values *)

Inductive pyvalue : Type :=
| PNone
| PBool (b : bool)
| PInt (z : Z)
| PFloat (q : Q)
| PStr (s : string)
| PList (l : list pyvalue)
| PDict (d : list (string * pyvalue)).

(** [part in d] and [d[part]] on a dict kept as its item list *)
Fixpoint dict_get (d : list (string * pyvalue)) (k : string) : option pyvalue :=
  match d with
  | [] => None
  | (k', v) :: rest => if String.eqb k' k then Some v else dict_get rest k
  end.

(** Structural equality of values, as the backend compares them. *)
Fixpoint pyvalue_eqb (a b : pyvalue) {struct a} : bool :=
  match a, b with
  | PNone, PNone => true
  | PBool x, PBool y => Bool.eqb x y
  | PInt x, PInt y => Z.eqb x y
  | PFloat x, PFloat y => Qeq_bool x y
  | PStr x, PStr y => String.eqb x y
  | PList la, PList lb =>
      (fix go (la lb : list pyvalue) {struct la} : bool :=
         match la, lb with
         | [], [] => true
         | x :: la', y :: lb' => pyvalue_eqb x y && go la' lb'
         | _, _ => false
         end) la lb
  | PDict da, PDict db =>
      (fix go (da db : list (string * pyvalue)) {struct da} : bool :=
         match da, db with
         | [], [] => true
         | (ka, x) :: da', (kb, y) :: db' =>
             String.eqb ka kb && pyvalue_eqb x y && go da' db'
         | _, _ => false
         end) da db
  | _, _ => false
  end.

(** ** get_text_at_path *)

(** The inner loop: follow [parts] from [current]; a step that cannot be
    taken leaves [None] and stops. *)
Fixpoint descend (current : pyvalue) (parts : list string) : pyvalue :=
  match parts with
  | [] => current
  | part :: rest =>
      match current with
      | PDict d =>
          match dict_get d part with
          | Some v => descend v rest
          | None => PNone
          end
      | _ => PNone
      end
  end.

(** What one field appends to [results]. *)
Definition field_results (doc : pyvalue) (field : string) : list string :=
  match descend doc (PyStr.split "."%char field) with
  | PStr current =>
      if PyStr.truthy (PyStr.strip current) then [PyStr.strip current] else []
  | _ => []
  end.

Definition get_text_at_path (doc : pyvalue) (fields : list string) : string :=
  PyStr.join " " (flat_map (field_results doc) fields).

(** ** Outcomes of a call and the monad the store runs in *)

Inductive exn : Type := TypeError | OperationFailure.

Inductive outcome (A : Type) : Type :=
| Returns (a : A)
| Raises (e : exn).
Arguments Returns {A} a.
Arguments Raises {A} e.

(** ** Documents, items and call arguments *)

Definition namespace : Type := list string.
Definition datetime : Type := Z.
Definition vector : Type := list Q.

(** [index: Optional[Union[bool, List[str]]]] *)
Inductive index_arg : Type :=
| IndexBool (b : bool)
| IndexFields (fields : list string).

(** [ttl: Union[Optional[float], _NotProvidedSentinel]] *)
Inductive ttl_arg : Type :=
| NOT_PROVIDED
| TtlNone
| TtlMinutes (minutes : Z).

(** A document of the collection, or of a query result.  A field that a
    document may lack is an [option]; ["expiration"] can moreover be present
    with the value [None]. *)
Record document : Type := {
  _id : nat;
  d_namespace : namespace;
  d_key : string;
  d_logical_key : option string;
  d_value : pyvalue;
  d_created : option datetime;
  d_expiration : option (option datetime);
  d_indexed : option index_arg;
  d_embedding : option vector;
  d_score : option Q
}.

Record Item : Type := {
  value : pyvalue;
  key : string;
  item_namespace : namespace;
  created_at : option datetime;
  updated_at : option datetime
}.

Record SearchItem : Type := {
  s_namespace : namespace;
  s_key : string;
  s_value : pyvalue;
  s_created_at : option datetime;
  s_updated_at : option datetime;
  score : option Q
}.

(** [index_config: Optional[Dict[str, Any]]], with the three keys the store
    reads; a key that is not in the dict is [None]. *)
Record index_config : Type := {
  embed : option (string -> vector);
  fields : option (list string);
  ic_index_name : option string
}.

(** The attributes [__init__] sets (the client handles apart). *)
Record MongoDBBaseStore : Type := {
  _ttl_support : bool;
  supports_ttl : bool;
  _index_config : option index_config;
  semantic_enabled : bool;
  _embedding_fn : option (string -> vector);
  index_name : option string
}.

(** ** The world outside the store

    [environment] fixes what the process cannot decide: the UUIDs drawn, the
    clock readings, and the answers of the Atlas search and text indexes.
    [world] is what changes: the collection and how many ObjectIds, UUIDs
    and clock readings have been consumed. *)

Record environment : Type := {
  uuid4 : nat -> string;
  utcnow : nat -> datetime;
  (** the [$search]/[knnBeta] stage: candidates with their [searchScore], or
      an operation failure *)
  knnBeta : list document -> option string -> vector -> nat ->
            option (list (document * Q));
  (** [$text]: the [textScore] of a document that matches the search string *)
  textScore : string -> document -> option Q;
  (** the order a server-side sort on the score leaves the documents in *)
  sort_stage : list document -> list document
}.

Record world : Type := {
  collection : list document;
  oids : nat;
  uuids : nat;
  ticks : nat
}.

Definition M (A : Type) : Type := world -> outcome A * world.

Definition ret {A : Type} (a : A) : M A := fun w => (Returns a, w).

Definition raise {A : Type} (e : exn) : M A := fun w => (Raises e, w).

Definition bind {A B : Type} (m : M A) (k : A -> M B) : M B :=
  fun w =>
    match m w with
    | (Returns a, w') => k a w'
    | (Raises e, w') => (Raises e, w')
    end.

Notation "x <- m ;; k" := (bind m (fun x => k))
  (at level 61, m at next level, right associativity).
Notation "m ;;; k" := (bind m (fun _ => k))
  (at level 61, right associativity).

(** [try: m except pymongo.errors.OperationFailure: handler] *)
Definition try_except_OperationFailure {A : Type} (m : M A) (handler : M A) : M A :=
  fun w =>
    match m w with
    | (Raises OperationFailure, w') => handler w'
    | r => r
    end.

(** ** Queries *)

Inductive clause : Type :=
| NamespaceIs (ns : namespace)            (* "namespace": [...]          *)
| KeyIs (k : string)                      (* "key": k                    *)
| IdIs (i : nat)                          (* "_id": i                    *)
| NamespaceAt (i : nat) (part : string)   (* "namespace.<i>": part       *)
| ValueAt (k : string) (v : pyvalue)      (* "value.<k>": v              *)
| TextSearch (q : string).                (* "$text": {"$search": q}     *)

Definition query : Type := list clause.

Definition namespace_eqb (a b : namespace) : bool :=
  if list_eq_dec string_dec a b then true else false.

(** Python truth values *)
Definition truthy_bool (b : option bool) : bool :=
  match b with Some true => true | _ => false end.

Definition truthy_str (s : option string) : bool :=
  match s with Some s => PyStr.truthy s | None => false end.

Definition truthy_tuple {A : Type} (t : option (list A)) : bool :=
  match t with Some (_ :: _) => true | _ => false end.

(** [doc.get("expiration")] as a condition: a datetime is true, [None] and
    a missing field are false. *)
Definition truthy_expiration (doc : document) : bool :=
  match d_expiration doc with Some (Some _) => true | _ => false end.

(** [doc.get("logical_key", doc["key"])] *)
Definition doc_key (doc : document) : string :=
  match d_logical_key doc with Some k => k | None => d_key doc end.

Definition set_expiration (e : option datetime) (doc : document) : document :=
  {| _id := _id doc; d_namespace := d_namespace doc; d_key := d_key doc;
     d_logical_key := d_logical_key doc; d_value := d_value doc;
     d_created := d_created doc; d_expiration := Some e;
     d_indexed := d_indexed doc; d_embedding := d_embedding doc;
     d_score := d_score doc |}.

Definition set_score (s : option Q) (doc : document) : document :=
  {| _id := _id doc; d_namespace := d_namespace doc; d_key := d_key doc;
     d_logical_key := d_logical_key doc; d_value := d_value doc;
     d_created := d_created doc; d_expiration := d_expiration doc;
     d_indexed := d_indexed doc; d_embedding := d_embedding doc;
     d_score := s |}.

(** The projection [{"namespace": 1, "key": 1, "value": 1, "created": 1}]
    plus a score: [_id] and the listed fields survive, nothing else does. *)
Definition project (s : option Q) (doc : document) : document :=
  {| _id := _id doc; d_namespace := d_namespace doc; d_key := d_key doc;
     d_logical_key := None; d_value := d_value doc;
     d_created := d_created doc; d_expiration := None;
     d_indexed := None; d_embedding := None;
     d_score := s |}.

Fixpoint enumerate_from {A : Type} (i : nat) (l : list A) : list (nat * A) :=
  match l with
  | [] => []
  | x :: r => (i, x) :: enumerate_from (S i) r
  end.

(** [skip(n)] and [limit(n)] of a cursor; [limit(0)] is no limit. *)
Definition cursor_skip {A : Type} (n : nat) (l : list A) : list A := skipn n l.
Definition cursor_limit {A : Type} (n : nat) (l : list A) : list A :=
  match n with 0 => l | _ => firstn n l end.

(** [sorted(set(l))] needs the order of tuples of strings: strings compare
    by code point, which is the byte order of their UTF-8 form. *)
Fixpoint tuple_leb (a b : list string) : bool :=
  match a, b with
  | [], _ => true
  | _ :: _, [] => false
  | x :: a', y :: b' =>
      match String.compare x y with
      | Lt => true
      | Gt => false
      | Eq => tuple_leb a' b'
      end
  end.

Module TupleOrder <: TotalLeBool.
Definition t : Type := list string.
Definition leb : t -> t -> bool := tuple_leb.
Theorem leb_total : forall a b, leb a b = true \/ leb b a = true.
Proof.
  unfold leb. induction a as [|x a IH]; intros [|y b]; simpl; auto.
  rewrite (String.compare_antisym y x).
  destruct (String.compare x y); simpl; auto.
Qed.
End TupleOrder.

Module TupleSort := Sort TupleOrder.

(** [set(l)]: one copy of each element *)
Definition py_set (l : list (list string)) : list (list string) :=
  nodup (list_eq_dec string_dec) l.

Definition sorted (l : list (list string)) : list (list string) :=
  TupleSort.sort l.

(** ** The collection's primitives and the store's methods *)

Section Operations.

Variable E : environment.

Definition clause_matches (c : clause) (doc : document) : bool :=
  match c with
  | NamespaceIs ns => namespace_eqb (d_namespace doc) ns
  | KeyIs k => String.eqb (d_key doc) k
  | IdIs i => Nat.eqb (_id doc) i
  | NamespaceAt i part =>
      match nth_error (d_namespace doc) i with
      | Some p => String.eqb p part
      | None => false
      end
  | ValueAt k v => pyvalue_eqb (descend (d_value doc) (PyStr.split "."%char k)) v
  | TextSearch q =>
      match textScore E q doc with Some _ => true | None => false end
  end.

Definition matches (q : query) (doc : document) : bool :=
  forallb (fun c => clause_matches c doc) q.

(** [uuid.uuid4()] and [datetime.now(timezone.utc)] *)
Definition uuid_uuid4 : M string :=
  fun w =>
    (Returns (uuid4 E (uuids w)),
     {| collection := collection w; oids := oids w;
        uuids := S (uuids w); ticks := ticks w |}).

Definition datetime_now : M datetime :=
  fun w =>
    (Returns (utcnow E (ticks w)),
     {| collection := collection w; oids := oids w;
        uuids := uuids w; ticks := S (ticks w) |}).

Definition with_collection (f : list document -> list document) : M unit :=
  fun w =>
    (Returns tt,
     {| collection := f (collection w); oids := oids w;
        uuids := uuids w; ticks := ticks w |}).

(** [insert_one]: the driver gives the document a fresh [_id]. *)
Definition insert_one (mk : nat -> document) : M unit :=
  fun w =>
    (Returns tt,
     {| collection := collection w ++ [mk (oids w)]; oids := S (oids w);
        uuids := uuids w; ticks := ticks w |}).

Definition find_one (q : query) : M (option document) :=
  fun w => (Returns (find (matches q) (collection w)), w).

Fixpoint update_first (q : query) (f : document -> document)
  (docs : list document) : list document :=
  match docs with
  | [] => []
  | doc :: rest =>
      if matches q doc then f doc :: rest else doc :: update_first q f rest
  end.

Fixpoint delete_first (q : query) (docs : list document) : list document :=
  match docs with
  | [] => []
  | doc :: rest => if matches q doc then rest else doc :: delete_first q rest
  end.

(** [update_one(q, {"$set": {"expiration": e}})] *)
Definition update_one (q : query) (e : option datetime) : M unit :=
  with_collection (update_first q (set_expiration e)).

Definition delete_one (q : query) : M unit :=
  with_collection (delete_first q).

(** [find(q, projection=...).sort([("score", {"$meta": "textScore"})])
    .skip(offset).limit(n)] on the documents [docs]; the projection carries
    the text score when [text] is a search string. *)
Definition find_docs (docs : list document) (q : query) (text : option string)
  (offset n : nat) : list document :=
  let score_of doc :=
    match text with Some s => textScore E s doc | None => None end in
  cursor_limit n
    (cursor_skip offset
       (sort_stage E
          (map (fun doc => project (score_of doc) doc)
             (filter (matches q) docs)))).

Definition find_cursor (q : query) (text : option string) (offset n : nat)
  : M (list document) :=
  fun w => (Returns (find_docs (collection w) q text offset n), w).

(** The stages of the [search] pipeline after [$search], applied to its
    candidates: an optional [$match], [$sort], [$skip], [$limit], [$project].
    (A server that rejects [$limit: 0] makes [search] see the same empty
    list, through its handler.) *)
Definition pipeline_docs (candidates : list (document * Q)) (ns_filter : query)
  (offset limit : nat) : list document :=
  let scored := map (fun c => set_score (Some (snd c)) (fst c)) candidates in
  let matched :=
    match ns_filter with
    | [] => scored
    | _ => filter (matches ns_filter) scored
    end in
  map (fun doc => project (d_score doc) doc)
    (firstn limit (skipn offset (sort_stage E matched))).

(** [aggregate(pipeline)] for the pipeline [search] builds. *)
Definition aggregate (index : option string) (query_vector : vector)
  (ns_filter : query) (offset limit : nat) : M (list document) :=
  fun w =>
    match knnBeta E (collection w) index query_vector limit with
    | None => (Raises OperationFailure, w)
    | Some candidates =>
        (Returns (pipeline_docs candidates ns_filter offset limit), w)
    end.

(** [distinct("namespace", q)], taken to yield each namespace array once, as
    the annotation [ns: List[str]] in [list_namespaces] has it *)
Definition distinct_namespace (q : query) : M (list namespace) :=
  fun w =>
    (Returns
       (nodup (list_eq_dec string_dec)
          (map d_namespace (filter (matches q) (collection w)))), w).

(** *** __init__ *)

Definition __init__ (ttl_support : bool) (cfg : option index_config)
  : outcome MongoDBBaseStore :=
  match cfg with
  | Some c =>
      match embed c with
      | Some f =>
          Returns
            {| _ttl_support := ttl_support; supports_ttl := ttl_support;
               _index_config := cfg; semantic_enabled := true;
               _embedding_fn := Some f;
               index_name :=
                 Some (match ic_index_name c with
                       | Some n => n
                       | None => "langchain_vsearch_index"
                       end) |}
      | None =>
          Returns
            {| _ttl_support := ttl_support; supports_ttl := ttl_support;
               _index_config := cfg; semantic_enabled := false;
               _embedding_fn := None; index_name := None |}
      end
  | None =>
      Returns
        {| _ttl_support := ttl_support; supports_ttl := ttl_support;
           _index_config := cfg; semantic_enabled := false;
           _embedding_fn := None; index_name := None |}
  end.

Definition _namespace_query (ns : namespace) : query := [NamespaceIs ns].

Definition _namespace_prefix_query (namespace_prefix : namespace) : query :=
  map (fun ip => NamespaceAt (fst ip) (snd ip)) (enumerate_from 0 namespace_prefix).

(** [timedelta(minutes=ttl)], in microseconds *)
Definition timedelta_minutes (ttl : Z) : Z := (ttl * 60000000)%Z.

Definition _compute_expiration (ttl : option Z) : M (option datetime) :=
  match ttl with
  | None => ret None
  | Some ttl => now <- datetime_now ;; ret (Some (now + timedelta_minutes ttl)%Z)
  end.

(** [self._embedding_fn(text)]; calling [None] is a [TypeError]. *)
Definition call_embedding_fn (self : MongoDBBaseStore) (text : string) : M vector :=
  match _embedding_fn self with
  | Some f => ret (f text)
  | None => raise TypeError
  end.

(** *** get *)

Definition item_of (doc : document) : Item :=
  {| value := d_value doc; key := doc_key doc;
     item_namespace := d_namespace doc;
     created_at := d_created doc; updated_at := d_created doc |}.

Definition get (self : MongoDBBaseStore) (ns : namespace) (k : string)
  (refresh_ttl : option bool) : M (option Item) :=
  let q := _namespace_query ns ++ [KeyIs k] in
  found <- find_one q ;;
  match found with
  | None => ret None
  | Some doc =>
      doc' <- (if truthy_bool refresh_ttl && _ttl_support self
                  && truthy_expiration doc
               then new_exp <- _compute_expiration (Some 10%Z) ;;
                    update_one q new_exp ;;;
                    ret (set_expiration new_exp doc)
               else ret doc) ;;
      ret (Some (item_of doc'))
  end.

(** *** delete *)

Definition delete (self : MongoDBBaseStore) (ns : namespace) (k : string) : M unit :=
  delete_one (_namespace_query ns ++ [KeyIs k]).

(** *** search *)

Definition search_item_of (doc : document) : SearchItem :=
  {| s_namespace := d_namespace doc; s_key := doc_key doc;
     s_value := d_value doc;
     s_created_at := d_created doc; s_updated_at := d_created doc;
     score := d_score doc |}.

(** [for k, v in filter.items(): q[f"value.{k}"] = v], under [if filter:] *)
Definition filter_clauses (flt : option (list (string * pyvalue))) : query :=
  match flt with
  | Some items => map (fun kv => ValueAt (fst kv) (snd kv)) items
  | None => []
  end.

(** [q["$text"] = {"$search": query}], under [if query:] *)
Definition text_clause (qry : option string) : query :=
  match qry with
  | Some s => if PyStr.truthy s then [TextSearch s] else []
  | None => []
  end.

Definition text_of (qry : option string) : option string :=
  match qry with
  | Some s => if PyStr.truthy s then Some s else None
  | None => None
  end.

(** [query or ""] *)
Definition or_empty (qry : option string) : string :=
  match qry with Some s => s | None => "" end.

(** [seen_keys], a set of strings *)
Definition set_mem (k : string) (s : list string) : bool :=
  existsb (String.eqb k) s.

Definition set_add (k : string) (s : list string) : list string :=
  if set_mem k s then s else k :: s.

(** The TTL refresh that [get] and the first loop of [search] share the
    shape of: the new expiration is [_compute_expiration(10)]. *)
Definition refresh (self : MongoDBBaseStore) (refresh_ttl : option bool)
  (q : query) (doc : document) : M document :=
  if truthy_bool refresh_ttl && _ttl_support self && truthy_expiration doc
  then new_exp <- _compute_expiration (Some 10%Z) ;;
       update_one q new_exp ;;;
       ret (set_expiration new_exp doc)
  else ret doc.

(** [for doc in docs: ...], the loop over the vector results *)
Fixpoint vector_loop (self : MongoDBBaseStore) (refresh_ttl : option bool)
  (docs : list document) (results : list SearchItem) (seen_keys : list string)
  : M (list SearchItem * list string) :=
  match docs with
  | [] => ret (results, seen_keys)
  | doc :: rest =>
      doc' <- refresh self refresh_ttl [IdIs (_id doc)] doc ;;
      vector_loop self refresh_ttl rest
        (results ++ [search_item_of doc'])
        (set_add (doc_key doc') seen_keys)
  end.

(** [for doc in fallback_cursor: ...], with its [continue] and [break] *)
Fixpoint fallback_loop (limit : nat) (cursor : list document)
  (results : list SearchItem) (seen_keys : list string)
  : list SearchItem * list string :=
  match cursor with
  | [] => (results, seen_keys)
  | doc :: rest =>
      let key_val := doc_key doc in
      if set_mem key_val seen_keys then fallback_loop limit rest results seen_keys
      else
        let results' := results ++ [search_item_of doc] in
        let seen_keys' := set_add key_val seen_keys in
        if Nat.leb limit (List.length results') then (results', seen_keys')
        else fallback_loop limit rest results' seen_keys'
  end.

(** The part of the semantic branch after the first loop. *)
Definition fallback_fill (namespace_prefix : namespace) (qry : option string)
  (flt : option (list (string * pyvalue))) (limit offset : nat)
  (results : list SearchItem) (seen_keys : list string) : M (list SearchItem) :=
  if Nat.ltb (List.length results) limit then
    let remaining := limit - List.length results in
    let fallback_q :=
      _namespace_prefix_query namespace_prefix ++ filter_clauses flt
        ++ text_clause qry in
    fallback_cursor <- find_cursor fallback_q (text_of qry) offset remaining ;;
    ret (fst (fallback_loop limit fallback_cursor results seen_keys))
  else ret results.

Definition search (self : MongoDBBaseStore) (namespace_prefix : namespace)
  (qry : option string) (flt : option (list (string * pyvalue)))
  (limit offset : nat) (refresh_ttl : option bool) : M (list SearchItem) :=
  if semantic_enabled self then
    query_vector <- call_embedding_fn self (or_empty qry) ;;
    let ns_filter := _namespace_prefix_query namespace_prefix ++ filter_clauses flt in
    docs <- try_except_OperationFailure
              (aggregate (index_name self) query_vector ns_filter offset limit)
              (ret []) ;;
    rs <- vector_loop self refresh_ttl docs [] [] ;;
    fallback_fill namespace_prefix qry flt limit offset (fst rs) (snd rs)
  else
    let q :=
      _namespace_prefix_query namespace_prefix ++ filter_clauses flt
        ++ text_clause qry in
    cursor <- find_cursor q (text_of qry) offset limit ;;
    ret (map search_item_of cursor).

(** *** put *)

(** [index is not False] *)
Definition is_not_False (index : option index_arg) : bool :=
  match index with Some (IndexBool false) => false | _ => true end.

Definition configured_fields (self : MongoDBBaseStore) : list string :=
  match _index_config self with
  | Some c => match fields c with Some l => l | None => ["$"] end
  | None => ["$"]
  end.

Definition put (self : MongoDBBaseStore) (ns : namespace) (k : string)
  (v : pyvalue) (index : option index_arg) (ttl : ttl_arg) : M unit :=
  unique_key <- uuid_uuid4 ;;
  now <- datetime_now ;;
  expiration <-
    match ttl with
    | NOT_PROVIDED => ret None
    | TtlNone => ret (if _ttl_support self then Some None else None)
    | TtlMinutes m =>
        if _ttl_support self
        then e <- _compute_expiration (Some m) ;; ret (Some e)
        else ret None
    end ;;
  embedding <-
    (if is_not_False index && semantic_enabled self then
       let text := get_text_at_path v (configured_fields self) in
       if PyStr.truthy (PyStr.strip text)
       then embedding_vector <- call_embedding_fn self text ;;
            ret (Some embedding_vector)
       else ret None
     else ret None) ;;
  insert_one (fun oid =>
    {| _id := oid; d_namespace := ns; d_key := unique_key;
       d_logical_key := Some k; d_value := v; d_created := Some now;
       d_expiration := expiration; d_indexed := index;
       d_embedding := embedding; d_score := None |}).

(** *** list_namespaces *)

Definition matches_suffix (suffix ns : namespace) : bool :=
  if Nat.leb (List.length suffix) (List.length ns)
  then namespace_eqb (skipn (List.length ns - List.length suffix) ns) suffix
  else false.

Definition list_namespaces (self : MongoDBBaseStore)
  (prefix suffix : option namespace) (max_depth : option nat)
  (limit offset : nat) : M (list namespace) :=
  let q :=
    match prefix with
    | Some ((_ :: _) as p) => _namespace_prefix_query p
    | _ => []
    end in
  namespaces <- distinct_namespace q ;;
  let namespaces1 :=
    match suffix with
    | Some ((_ :: _) as s) => filter (matches_suffix s) namespaces
    | _ => namespaces
    end in
  let namespaces2 :=
    match max_depth with
    | Some d => map (firstn d) namespaces1
    | None => namespaces1
    end in
  let unique_namespaces := sorted (py_set namespaces2) in
  ret (firstn limit (skipn offset unique_namespaces)).

(** *** batch *)

Record MatchCondition : Type := {
  match_type : string;
  path : namespace
}.

(** What [batch] may find in [ops]: the four op classes it tests for, and
    anything else. *)
Inductive op : Type :=
| GetOp (ns : namespace) (k : string) (refresh_ttl : option bool)
| SearchOp (namespace_prefix : namespace) (qry : option string)
    (flt : option (list (string * pyvalue))) (limit offset : nat)
    (refresh_ttl : option bool)
| PutOp (ns : namespace) (k : string) (v : option pyvalue)
    (index : option index_arg) (ttl : ttl_arg)
| ListNamespacesOp (match_conditions : option (list MatchCondition))
    (max_depth : option nat) (limit offset : nat)
| OtherOp (obj : pyvalue).

(** A slot of the result list; [ResNone] is Python's [None]. *)
Inductive result : Type :=
| ResNone
| ResItem (i : Item)
| ResSearch (l : list SearchItem)
| ResNamespaces (l : list namespace).

Fixpoint scan_conditions (conds : list MatchCondition)
  (prefix suffix : option namespace) : option namespace * option namespace :=
  match conds with
  | [] => (prefix, suffix)
  | cond :: rest =>
      if String.eqb (match_type cond) "prefix"
      then scan_conditions rest (Some (path cond)) suffix
      else if String.eqb (match_type cond) "suffix"
      then scan_conditions rest prefix (Some (path cond))
      else scan_conditions rest prefix suffix
  end.

(** The body of the loop of [batch]: the [isinstance] chain. *)
Definition dispatch (self : MongoDBBaseStore) (o : op) : M result :=
  match o with
  | GetOp ns k refresh_ttl =>
      r <- get self ns k refresh_ttl ;;
      ret (match r with Some i => ResItem i | None => ResNone end)
  | SearchOp namespace_prefix qry flt limit offset refresh_ttl =>
      r <- search self namespace_prefix qry flt limit offset refresh_ttl ;;
      ret (ResSearch r)
  | PutOp ns k (Some v) index ttl =>
      put self ns k v index ttl ;;; ret ResNone
  | PutOp ns k None index ttl =>
      delete self ns k ;;; ret ResNone
  | ListNamespacesOp match_conditions max_depth limit offset =>
      let ps :=
        match match_conditions with
        | Some conds => scan_conditions conds None None
        | None => (None, None)
        end in
      r <- list_namespaces self (fst ps) (snd ps) max_depth limit offset ;;
      ret (ResNamespaces r)
  | OtherOp _ => ret ResNone
  end.

Fixpoint batch_loop (self : MongoDBBaseStore) (ops : list op)
  (results : list result) : M (list result) :=
  match ops with
  | [] => ret results
  | o :: rest =>
      res <- dispatch self o ;;
      batch_loop self rest (results ++ [res])
  end.

Definition batch (self : MongoDBBaseStore) (ops : list op) : M (list result) :=
  batch_loop self ops [].

End Operations.

(** ** quality_node ([nodes/quality_node.py])

    The node reads the store through [search]; the chain it invokes is a
    language model, taken as a function from what it is given to the message
    it answers with. *)

Record Message : Type := {
  content : string;
  name : option string
}.

Record Command : Type := {
  goto : string;
  update_messages : list Message
}.

Inductive node_exn : Type :=
| IndexError
| StoreError (e : exn).

Inductive node_outcome (A : Type) : Type :=
| NodeReturns (a : A)
| NodeRaises (e : node_exn).
Arguments NodeReturns {A} a.
Arguments NodeRaises {A} e.

(** [messages[-2]] *)
Definition second_to_last {A : Type} (l : list A) : option A :=
  if Nat.ltb (List.length l) 2 then None
  else nth_error l (List.length l - 2).

Definition quality_node (E : environment)
  (quality_chain : list Message -> list SearchItem -> Message)
  (messages : list Message) (store : MongoDBBaseStore)
  : world -> node_outcome Command * world :=
  fun w =>
    match second_to_last messages with
    | None => (NodeRaises IndexError, w)
    | Some m =>
        match search E store ["articles"] (Some (content m)) None 3 0 None w with
        | (Returns past_articles, w') =>
            (NodeReturns
               {| goto := "supervisor_node";
                  update_messages :=
                    [{| content := content (quality_chain messages past_articles);
                        name := Some "quality_node" |}] |}, w')
        | (Raises e, w') => (NodeRaises (StoreError e), w')
        end
    end.

(** ** Readings of the specification

    Second definitions, written from the specification's sentences, that the
    theorems below compare the code with. *)






(** The record a search item stands for is the stored document with the
    storage key the item's document carried; this is the logical key the
    record was written under. *)
Definition stored_logical_key (w : world) (storage_key : string) : option string :=
  match find (fun doc => String.eqb (d_key doc) storage_key) (collection w) with
  | Some doc => d_logical_key doc
  | None => None
  end.

(** The expiration a stored document carries, if it has the field with a
    datetime in it. *)
Definition expiration_of (doc : document) : option datetime :=
  match d_expiration doc with Some (Some e) => Some e | _ => None end.

(** ** A concrete environment and store for the scenarios *)

Module Scenario.

Definition env : environment :=
  {| uuid4 := fun n =>
       match n with
       | 0 => "1b4e28ba-2fa1-41d2-883f-0016d3cca427"
       | 1 => "6fa459ea-ee8a-4ca4-894e-db77e160355e"
       | _ => "9c5b94b1-35ad-49bb-b118-8e8fc24abf80"
       end;
     utcnow := fun n => (1700000000000000 + Z.of_nat n * 1000000)%Z;
     knnBeta := fun coll _ _ _ =>
       Some (map (fun doc => (doc, 1%Q))
               (filter (fun doc => match d_embedding doc with
                                   | Some _ => true
                                   | None => false
                                   end) coll));
     textScore := fun _ _ => Some 1%Q;
     sort_stage := fun docs => docs |}.

(** The same environment with a vector index that is failing. *)
Definition env_failing : environment :=
  {| uuid4 := uuid4 env; utcnow := utcnow env;
     knnBeta := fun _ _ _ _ => None;
     textScore := textScore env; sort_stage := sort_stage env |}.

Definition embed_text (text : string) : vector :=
  [inject_Z (Z.of_nat (String.length text))].

(** [index_config] of [graph.py] *)
Definition graph_index_config : index_config :=
  {| embed := Some embed_text;
     fields := Some ["content.article"; "summary"];
     ic_index_name := Some "store_index" |}.

(** An index configuration that names fields and an index but no embedding
    function. *)
Definition config_without_embed : index_config :=
  {| embed := None;
     fields := Some ["content.article"];
     ic_index_name := Some "store_index" |}.

Definition semantic_store : MongoDBBaseStore :=
  {| _ttl_support := true; supports_ttl := true;
     _index_config := Some graph_index_config; semantic_enabled := true;
     _embedding_fn := Some embed_text; index_name := Some "store_index" |}.

Definition text_store : MongoDBBaseStore :=
  {| _ttl_support := true; supports_ttl := true;
     _index_config := None; semantic_enabled := false;
     _embedding_fn := None; index_name := None |}.

Definition empty_world : world :=
  {| collection := []; oids := 0; uuids := 0; ticks := 0 |}.

Definition article_A : pyvalue :=
  PDict [("content",
          PDict [("article", PStr "SEBI announces new derivatives margin rules")])].

Definition article_B : pyvalue :=
  PDict [("content",
          PDict [("article", PStr "RBI keeps the repo rate unchanged")])].

(** One record written with a TTL of five minutes. *)
Definition world_A : world :=
  snd (put env semantic_store ["articles"] "a1" article_A None (TtlMinutes 5)
         empty_world).

(** A second record written under the same namespace and logical key. *)
Definition world_AB : world :=
  snd (put env semantic_store ["articles"] "a1" article_B None NOT_PROVIDED
         world_A).

(** A UUID source that never repeats, for the scenarios that need one. *)
Fixpoint unary (n : nat) : string :=
  match n with
  | 0 => EmptyString
  | S n' => String "u"%char (unary n')
  end.

Definition env_counting : environment :=
  {| uuid4 := unary; utcnow := utcnow env; knnBeta := knnBeta env;
     textScore := textScore env; sort_stage := sort_stage env |}.

End Scenario.

(** A store object is well formed when semantic mode comes with a function
    to call; [__init__] builds no other. *)
Definition well_formed (self : MongoDBBaseStore) : Prop :=
  semantic_enabled self = true -> exists f, _embedding_fn self = Some f.

(** [seen_keys] once the first loop has gone through [docs] *)
Definition seen_after (docs : list document) (seen_keys : list string) : list string :=
  fold_left (fun s doc => set_add (doc_key doc) s) docs seen_keys.

(** The documents the first loop of a semantic [search] goes through: the
    output of the pipeline, or none when [aggregate] raised. *)
Definition vector_docs (E : environment) (self : MongoDBBaseStore)
  (f : string -> vector) (namespace_prefix : namespace) (qry : option string)
  (flt : option (list (string * pyvalue))) (limit offset : nat) (w : world)
  : list document :=
  match knnBeta E (collection w) (index_name self) (f (or_empty qry)) limit with
  | Some candidates =>
      pipeline_docs E candidates
        (_namespace_prefix_query namespace_prefix ++ filter_clauses flt)
        offset limit
  | None => []
  end.

(** The query of the fallback and of the text-only search. *)
Definition text_query (namespace_prefix : namespace) (qry : option string)
  (flt : option (list (string * pyvalue))) : query :=
  _namespace_prefix_query namespace_prefix ++ filter_clauses flt ++ text_clause qry.


(** ** Notions the further properties are stated with *)



(** A document with its expiration field taken away. *)
Definition without_expiration (doc : document) : document :=
  {| _id := _id doc; d_namespace := d_namespace doc; d_key := d_key doc;
     d_logical_key := d_logical_key doc; d_value := d_value doc;
     d_created := d_created doc; d_expiration := None;
     d_indexed := d_indexed doc; d_embedding := d_embedding doc;
     d_score := d_score doc |}.

(** The storage keys of the collection are pairwise distinct and were all
    drawn from the UUID source already; likewise the [_id]s and the
    ObjectId counter. *)
Definition keys_fresh (E : environment) (w : world) : Prop :=
  NoDup (map d_key (collection w)) /\
  (forall k, In k (map d_key (collection w)) ->
             exists i, i < uuids w /\ k = uuid4 E i) /\
  NoDup (map _id (collection w)) /\
  (forall i, In i (map _id (collection w)) -> i < oids w).

(** * Properties *)

(** ** Text extraction *)






(** ** Construction *)

Lemma init_returns (ttl_support : bool) (cfg : option index_config) :
  exists self, __init__ ttl_support cfg = Returns self.
Proof.
  unfold __init__. destruct cfg as [c|]; [destruct (embed c)|]; eauto.
Qed.



(** ** Put *)

Ltac run_store :=
  unfold bind, ret, raise, uuid_uuid4, datetime_now, insert_one, find_one,
    update_one, delete_one, with_collection, _compute_expiration,
    call_embedding_fn; simpl.

(** What [put] does to the world: one document appended, with these fields. *)
Lemma put_inserts (E : environment) (self : MongoDBBaseStore) (ns : namespace)
  (k : string) (v : pyvalue) (index : option index_arg) (ttl : ttl_arg)
  (w : world) :
  well_formed self ->
  exists doc w',
    put E self ns k v index ttl w = (Returns tt, w') /\
    collection w' = collection w ++ [doc] /\
    uuids w' = S (uuids w) /\
    d_namespace doc = ns /\
    d_key doc = uuid4 E (uuids w) /\
    d_logical_key doc = Some k /\
    d_value doc = v /\
    d_created doc = Some (utcnow E (ticks w)) /\
    d_expiration doc =
      match ttl with
      | NOT_PROVIDED => None
      | TtlNone => if _ttl_support self then Some None else None
      | TtlMinutes m =>
          if _ttl_support self
          then Some (Some (utcnow E (S (ticks w)) + timedelta_minutes m)%Z)
          else None
      end /\
    d_embedding doc =
      (if is_not_False index && semantic_enabled self
          && PyStr.truthy (PyStr.strip (get_text_at_path v (configured_fields self)))
       then option_map
              (fun f => f (get_text_at_path v (configured_fields self)))
              (_embedding_fn self)
       else None).
Proof.
  intros Hwf. unfold put. run_store.
  destruct (is_not_False index); simpl;
    [destruct (semantic_enabled self) eqn:Hsem; simpl|].
  - destruct (Hwf Hsem) as [f Hf]. rewrite Hf.
    destruct (PyStr.truthy _); destruct ttl; destruct (_ttl_support self);
      simpl; do 2 eexists; repeat split; reflexivity.
  - destruct ttl; destruct (_ttl_support self);
      simpl; do 2 eexists; repeat split; reflexivity.
  - destruct ttl; destruct (_ttl_support self);
      simpl; do 2 eexists; repeat split; reflexivity.
Qed.






(** ** Construction without an embedding function *)

(** C8, as the code has it: an index configuration without an embedding
    function does not make construction fail.  The store is built in
    text-only mode: every later put stores a document without embedding and
    every later search returns normally, so nothing fails at first use
    either. *)
Theorem init_without_embed_disables_semantic (E : environment)
  (ttl_support : bool) (c : index_config) :
  embed c = None ->
  exists self,
    __init__ ttl_support (Some c) = Returns self /\
    semantic_enabled self = false /\
    (forall ns k v index ttl w,
        exists doc w',
          put E self ns k v index ttl w = (Returns tt, w') /\
          collection w' = collection w ++ [doc] /\
          d_embedding doc = None) /\
    (forall namespace_prefix qry flt limit offset refresh_ttl w,
        exists items,
          search E self namespace_prefix qry flt limit offset refresh_ttl w
          = (Returns items, w)).
Proof.
  intros Hc. unfold __init__. rewrite Hc.
  eexists. split; [reflexivity | split; [reflexivity | split]].
  - intros ns k v index ttl w.
    match goal with |- context [put E ?s] => set (self := s) end.
    assert (well_formed self) as Hwf by (intros H; discriminate H).
    destruct (put_inserts E self ns k v index ttl w Hwf)
      as (doc & w' & Hput & Hcoll & _ & _ & _ & _ & _ & _ & _ & Hemb).
    exists doc, w'. repeat split; try assumption.
    rewrite Hemb. simpl. rewrite andb_false_r. reflexivity.
  - intros. unfold search, find_cursor. simpl. run_store. eexists. reflexivity.
Qed.

Lemma init_without_embed_disables_semantic_witness :
  embed Scenario.config_without_embed = None /\
  exists self,
    __init__ true (Some Scenario.config_without_embed) = Returns self /\
    semantic_enabled self = false /\
    (forall ns k v index ttl w,
        exists doc w',
          put Scenario.env self ns k v index ttl w = (Returns tt, w') /\
          collection w' = collection w ++ [doc] /\
          d_embedding doc = None) /\
    (forall namespace_prefix qry flt limit offset refresh_ttl w,
        exists items,
          search Scenario.env self namespace_prefix qry flt limit offset
            refresh_ttl w = (Returns items, w)).
Proof.
  split; [reflexivity |].
  apply (init_without_embed_disables_semantic Scenario.env true
           Scenario.config_without_embed).
  reflexivity.
Defined.

(** C8, as stated, fails: construction with an index configuration that has
    no embedding function returns a store. *)
Lemma init_without_embed_does_not_raise :
  __init__ true (Some Scenario.config_without_embed)
  = Returns
      {| _ttl_support := true; supports_ttl := true;
         _index_config := Some Scenario.config_without_embed;
         semantic_enabled := false; _embedding_fn := None;
         index_name := None |}
  /\ ~ (forall ttl_support c,
           embed c = None ->
           exists e, __init__ ttl_support (Some c) = Raises e).
Proof.
  split; [reflexivity |].
  intros H.
  destruct (H true Scenario.config_without_embed eq_refl) as [e He].
  discriminate He.
Qed.

(** ** Get after put *)

Lemma find_app_none {A : Type} (f : A -> bool) (l : list A) (x : A) :
  (forall y, In y l -> f y = false) -> f x = false -> find f (l ++ [x]) = None.
Proof.
  intros Hl Hx. induction l as [|y l IH]; simpl.
  - rewrite Hx. reflexivity.
  - rewrite (Hl y (or_introl eq_refl)). apply IH.
    intros z Hz. apply Hl. right. exact Hz.
Qed.

Example get_by_storage_key_finds_the_record :
  fst (get Scenario.env Scenario.semantic_store ["articles"]
         "1b4e28ba-2fa1-41d2-883f-0016d3cca427" None Scenario.world_A)
  = Returns (Some {| value := Scenario.article_A; key := "a1";
                     item_namespace := ["articles"];
                     created_at := Some 1700000000000000%Z;
                     updated_at := Some 1700000000000000%Z |}).
Proof. reflexivity. Qed.

(** C1 on the code: [put] files the caller's key under ["logical_key"] and
    a fresh UUID under ["key"], and [get] asks for ["key"]; so unless some
    document's storage key happens to be the caller's key, the get that
    follows a put finds nothing. *)
Theorem get_after_put_is_absent (E : environment) (self : MongoDBBaseStore)
  (ns : namespace) (k : string) (v : pyvalue) (index : option index_arg)
  (ttl : ttl_arg) (refresh_ttl : option bool) (w : world) :
  well_formed self ->
  (forall doc, In doc (collection w) ->
               matches E (_namespace_query ns ++ [KeyIs k]) doc = false) ->
  uuid4 E (uuids w) <> k ->
  exists w',
    put E self ns k v index ttl w = (Returns tt, w') /\
    get E self ns k refresh_ttl w' = (Returns None, w').
Proof.
  intros Hwf Hold Hfresh.
  destruct (put_inserts E self ns k v index ttl w Hwf)
    as (doc & w' & Hput & Hcoll & _ & _ & Hkey & _).
  exists w'. split; [exact Hput |].
  unfold get. run_store. rewrite Hcoll.
  rewrite find_app_none; [reflexivity | exact Hold |].
  unfold matches. simpl. rewrite Hkey.
  apply String.eqb_neq in Hfresh. rewrite Hfresh.
  rewrite andb_false_r. reflexivity.
Qed.

Lemma get_after_put_is_absent_witness :
  well_formed Scenario.semantic_store /\
  "1b4e28ba-2fa1-41d2-883f-0016d3cca427" <> "a1" /\
  exists w',
    put Scenario.env Scenario.semantic_store ["articles"] "a1"
      Scenario.article_A None NOT_PROVIDED Scenario.empty_world = (Returns tt, w') /\
    get Scenario.env Scenario.semantic_store ["articles"] "a1" None w'
    = (Returns None, w').
Proof.
  assert (well_formed Scenario.semantic_store) as Hwf.
  { intros _. exists Scenario.embed_text. reflexivity. }
  assert ("1b4e28ba-2fa1-41d2-883f-0016d3cca427" <> "a1") as Hne
    by (intros H; discriminate H).
  split; [exact Hwf | split; [exact Hne |]].
  apply (get_after_put_is_absent Scenario.env Scenario.semantic_store
           ["articles"] "a1" Scenario.article_A None NOT_PROVIDED None
           Scenario.empty_world Hwf).
  - intros doc H. destruct H.
  - exact Hne.
Defined.

(** ** Search *)

Lemma set_mem_add (k k' : string) (s : list string) :
  set_mem k (set_add k' s) = true <-> k = k' \/ set_mem k s = true.
Proof.
  unfold set_add. destruct (set_mem k' s) eqn:Hk'.
  - split; [auto | intros [-> | H]; assumption].
  - unfold set_mem in *. simpl. rewrite orb_true_iff, String.eqb_eq. tauto.
Qed.


Lemma project_no_expiration (s : option Q) (doc : document) :
  truthy_expiration (project s doc) = false.
Proof. reflexivity. Qed.

Lemma pipeline_docs_projected (E : environment) (candidates : list (document * Q))
  (ns_filter : query) (offset limit : nat) :
  Forall (fun doc => truthy_expiration doc = false)
    (pipeline_docs E candidates ns_filter offset limit).
Proof.
  unfold pipeline_docs. apply Forall_forall. intros doc Hin.
  apply in_map_iff in Hin as (d & <- & _). reflexivity.
Qed.

Lemma pipeline_docs_length (E : environment) (candidates : list (document * Q))
  (ns_filter : query) (offset limit : nat) :
  List.length (pipeline_docs E candidates ns_filter offset limit) <= limit.
Proof.
  unfold pipeline_docs. rewrite length_map. apply firstn_le_length.
Qed.

(** The first loop does nothing but build items when no document it is
    given carries an expiration. *)
Lemma vector_loop_without_expiration (E : environment) (self : MongoDBBaseStore)
  (refresh_ttl : option bool) (docs : list document) :
  Forall (fun doc => truthy_expiration doc = false) docs ->
  forall results seen_keys w,
    vector_loop E self refresh_ttl docs results seen_keys w
    = (Returns (results ++ map search_item_of docs, seen_after docs seen_keys), w).
Proof.
  induction 1 as [|doc rest Hdoc _ IH]; intros results seen_keys w; simpl.
  - unfold ret. rewrite app_nil_r. reflexivity.
  - unfold bind, refresh. rewrite Hdoc, andb_false_r. unfold ret at 1.
    rewrite IH, <- app_assoc. reflexivity.
Qed.

(** The second loop: what it adds has keys that are new and pairwise
    distinct, and it stops at [limit]. *)
Lemma fallback_loop_adds (limit : nat) (cursor : list document) :
  forall results seen_keys,
    exists added,
      fst (fallback_loop limit cursor results seen_keys) = results ++ added /\
      NoDup (map s_key added) /\
      (forall it, In it added -> set_mem (s_key it) seen_keys = false) /\
      (forall it, In it added -> exists doc, In doc cursor /\ it = search_item_of doc) /\
      (List.length results < limit -> List.length (results ++ added) <= limit).
Proof.
  induction cursor as [|doc rest IH]; intros results seen_keys; simpl.
  - exists []. rewrite app_nil_r. repeat split.
    + constructor.
    + intros it [].
    + intros it [].
    + lia.
  - destruct (set_mem (doc_key doc) seen_keys) eqn:Hseen.
    + destruct (IH results seen_keys) as (added & Heq & Hnd & Hnew & Hsrc & Hlen).
      exists added. repeat split; auto.
      intros it Hit. destruct (Hsrc it Hit) as (d & Hd & ->). eauto.
    + destruct (Nat.leb limit (List.length (results ++ [search_item_of doc]))) eqn:Hfull.
      * exists [search_item_of doc]. simpl. repeat split.
        -- constructor; [intros [] | constructor].
        -- intros it [<- | []]. exact Hseen.
        -- intros it [<- | []]. eauto.
        -- rewrite length_app. simpl. lia.
      * destruct (IH (results ++ [search_item_of doc])
                    (set_add (doc_key doc) seen_keys))
          as (added & Heq & Hnd & Hnew & Hsrc & Hlen).
        exists (search_item_of doc :: added). repeat split.
        -- rewrite Heq, <- app_assoc. reflexivity.
        -- simpl. constructor; [|exact Hnd].
           intros Hin. apply in_map_iff in Hin as (it & Hk & Hit).
           specialize (Hnew it Hit).
           assert (set_mem (s_key it) (set_add (doc_key doc) seen_keys) = true) as Hc
             by (apply set_mem_add; left; exact Hk).
           congruence.
        -- intros it [<- | Hit]; [exact Hseen |].
           specialize (Hnew it Hit).
           destruct (set_mem (s_key it) seen_keys) eqn:Hm; [|reflexivity].
           assert (set_mem (s_key it) (set_add (doc_key doc) seen_keys) = true) as Hc
             by (apply set_mem_add; right; exact Hm).
           congruence.
        -- intros it [<- | Hit]; [eauto |].
           destruct (Hsrc it Hit) as (d & Hd & ->). eauto.
        -- intros _. apply Nat.leb_gt in Hfull.
           specialize (Hlen Hfull). rewrite <- app_assoc in Hlen. exact Hlen.
Qed.

(** A semantic search on a store with its embedding function: the vector
    documents (none when the vector query fails), then the fallback fill. *)
Lemma vector_docs_length (E : environment) (self : MongoDBBaseStore)
  (f : string -> vector) (namespace_prefix : namespace) (qry : option string)
  (flt : option (list (string * pyvalue))) (limit offset : nat) (w : world) :
  List.length (vector_docs E self f namespace_prefix qry flt limit offset w) <= limit.
Proof.
  unfold vector_docs. destruct (knnBeta _ _ _ _ _).
  - apply pipeline_docs_length.
  - simpl. lia.
Qed.

Lemma search_semantic_run (E : environment) (self : MongoDBBaseStore)
  (f : string -> vector) (namespace_prefix : namespace) (qry : option string)
  (flt : option (list (string * pyvalue))) (limit offset : nat)
  (refresh_ttl : option bool) (w : world) :
  semantic_enabled self = true ->
  _embedding_fn self = Some f ->
  search E self namespace_prefix qry flt limit offset refresh_ttl w
  = fallback_fill E namespace_prefix qry flt limit offset
      (map search_item_of
         (vector_docs E self f namespace_prefix qry flt limit offset w))
      (seen_after (vector_docs E self f namespace_prefix qry flt limit offset w) [])
      w.
Proof.
  intros Hsem Hf. unfold search, vector_docs. rewrite Hsem.
  unfold call_embedding_fn. rewrite Hf.
  unfold bind at 1. unfold ret at 1.
  unfold bind at 1. unfold try_except_OperationFailure, aggregate.
  destruct (knnBeta E (collection w) (index_name self) (f (or_empty qry)) limit)
    as [candidates|].
  - unfold bind.
    rewrite vector_loop_without_expiration by apply pipeline_docs_projected.
    reflexivity.
  - reflexivity.
Qed.

Lemma fallback_fill_run (E : environment) (namespace_prefix : namespace)
  (qry : option string) (flt : option (list (string * pyvalue)))
  (limit offset : nat) (results : list SearchItem) (seen_keys : list string)
  (w : world) :
  fallback_fill E namespace_prefix qry flt limit offset results seen_keys w
  = (Returns
       (if Nat.ltb (List.length results) limit
        then fst (fallback_loop limit
                    (find_docs E (collection w)
                       (text_query namespace_prefix qry flt)
                       (text_of qry) offset (limit - List.length results))
                    results seen_keys)
        else results), w).
Proof.
  unfold fallback_fill. destruct (Nat.ltb (List.length results) limit); reflexivity.
Qed.




(** The same happens when the vector query fails and the fallback supplies
    the results. *)
Example fallback_returns_one_logical_key_twice :
  exists items,
    search Scenario.env_failing Scenario.semantic_store ["articles"]
      (Some "margin") None 2 0 None Scenario.world_AB
    = (Returns items, Scenario.world_AB) /\
    map (fun it => stored_logical_key Scenario.world_AB (s_key it)) items
    = [Some "a1"; Some "a1"].
Proof.
  eexists. split; [vm_compute; reflexivity | reflexivity].
Qed.

(** C5: when the vector query of a semantic search fails with an operation
    failure, the search does not raise.  It goes on as after a vector query
    without results, and what it returns is what the fallback loop gathers
    from the full-text cursor (nothing when [limit] is 0, as no slot is to
    be filled). *)
Theorem search_survives_vector_failure (E : environment)
  (self : MongoDBBaseStore) (f : string -> vector)
  (namespace_prefix : namespace) (qry : option string)
  (flt : option (list (string * pyvalue))) (limit offset : nat)
  (refresh_ttl : option bool) (w : world) :
  semantic_enabled self = true ->
  _embedding_fn self = Some f ->
  aggregate E (index_name self) (f (or_empty qry))
    (_namespace_prefix_query namespace_prefix ++ filter_clauses flt)
    offset limit w = (Raises OperationFailure, w) ->
  search E self namespace_prefix qry flt limit offset refresh_ttl w
  = fallback_fill E namespace_prefix qry flt limit offset [] [] w
  /\ search E self namespace_prefix qry flt limit offset refresh_ttl w
     = (Returns
          (match limit with
           | 0 => []
           | S _ =>
               fst (fallback_loop limit
                      (find_docs E (collection w)
                         (text_query namespace_prefix qry flt)
                         (text_of qry) offset limit)
                      [] [])
           end), w).
Proof.
  intros Hsem Hf Hfail.
  assert (vector_docs E self f namespace_prefix qry flt limit offset w = []) as Hdocs.
  { unfold vector_docs. unfold aggregate in Hfail.
    destruct (knnBeta _ _ _ _ _); [discriminate Hfail | reflexivity]. }
  rewrite (search_semantic_run E self f) by assumption.
  rewrite Hdocs. simpl. split; [reflexivity |].
  rewrite fallback_fill_run. simpl.
  destruct limit; simpl; reflexivity.
Qed.

Lemma search_survives_vector_failure_witness :
  semantic_enabled Scenario.semantic_store = true /\
  _embedding_fn Scenario.semantic_store = Some Scenario.embed_text /\
  aggregate Scenario.env_failing (Some "store_index")
    (Scenario.embed_text "margin") [NamespaceAt 0 "articles"] 0 1
    Scenario.world_A = (Raises OperationFailure, Scenario.world_A) /\
  search Scenario.env_failing Scenario.semantic_store ["articles"]
    (Some "margin") None 1 0 None Scenario.world_A
  = (Returns
       [{| s_namespace := ["articles"];
           s_key := "1b4e28ba-2fa1-41d2-883f-0016d3cca427";
           s_value := Scenario.article_A;
           s_created_at := Some 1700000000000000%Z;
           s_updated_at := Some 1700000000000000%Z;
           score := Some 1%Q |}], Scenario.world_A).
Proof.
  split; [reflexivity | split; [reflexivity | split; [reflexivity |]]].
  destruct (search_survives_vector_failure Scenario.env_failing
              Scenario.semantic_store Scenario.embed_text ["articles"]
              (Some "margin") None 1 0 None Scenario.world_A
              eq_refl eq_refl eq_refl) as [_ H].
  rewrite H. reflexivity.
Defined.

(** ** TTL refresh *)

Lemma find_update_first (E : environment) (q : query)
  (g : document -> document) (docs : list document) (doc : document) :
  find (matches E q) docs = Some doc ->
  matches E q (g doc) = true ->
  find (matches E q) (update_first E q g docs) = Some (g doc).
Proof.
  intros Hfind Hg. induction docs as [|d rest IH]; simpl in *; [discriminate|].
  destruct (matches E q d) eqn:Hd.
  - inversion Hfind; subst. simpl. rewrite Hg. reflexivity.
  - simpl. rewrite Hd. apply IH. exact Hfind.
Qed.

Lemma matches_key_query_set_expiration (E : environment) (ns : namespace)
  (k : string) (e : option datetime) (doc : document) :
  matches E (_namespace_query ns ++ [KeyIs k]) (set_expiration e doc)
  = matches E (_namespace_query ns ++ [KeyIs k]) doc.
Proof. reflexivity. Qed.

(** No search changes the world: the text queries have no refresh step, and
    the documents the vector loop sees carry no expiration. *)
Lemma search_leaves_world (E : environment) (self : MongoDBBaseStore)
  (namespace_prefix : namespace) (qry : option string)
  (flt : option (list (string * pyvalue))) (limit offset : nat)
  (refresh_ttl : option bool) (w : world) :
  snd (search E self namespace_prefix qry flt limit offset refresh_ttl w) = w.
Proof.
  destruct (semantic_enabled self) eqn:Hsem.
  - destruct (_embedding_fn self) as [f|] eqn:Hf.
    + rewrite (search_semantic_run E self f) by assumption.
      rewrite fallback_fill_run. reflexivity.
    + unfold search, call_embedding_fn. rewrite Hsem, Hf. reflexivity.
  - unfold search. rewrite Hsem. reflexivity.
Qed.

(** C10, as the code has it: a get with [refresh_ttl], on a store with TTL
    support, that finds a record carrying an expiration sets the stored
    expiration to the clock reading plus 10 minutes, whatever the record's
    expiration was.  The refresh step in the vector loop of search computes
    the same 10 minutes for a document that carries an expiration, but no
    search changes a stored record. *)
Theorem refresh_window_is_ten_minutes (E : environment) (self : MongoDBBaseStore)
  (ns : namespace) (k : string) (w : world) (doc : document) (e : datetime) :
  _ttl_support self = true ->
  find (matches E (_namespace_query ns ++ [KeyIs k])) (collection w) = Some doc ->
  d_expiration doc = Some (Some e) ->
  (exists w' doc',
      get E self ns k (Some true) w = (Returns (Some (item_of doc)), w') /\
      find (matches E (_namespace_query ns ++ [KeyIs k])) (collection w') = Some doc' /\
      expiration_of doc' = Some (utcnow E (ticks w) + 10 * 60000000)%Z) /\
  (forall q0 w0,
      fst (refresh E self (Some true) q0 doc w0)
      = Returns (set_expiration (Some (utcnow E (ticks w0) + 10 * 60000000)%Z) doc)) /\
  (forall namespace_prefix qry flt limit offset refresh_ttl w0,
      snd (search E self namespace_prefix qry flt limit offset refresh_ttl w0) = w0).
Proof.
  intros Hts Hfind Hexp. split; [|split].
  - pose proof (matches_key_query_set_expiration E ns k) as Hkeep.
    change (_namespace_query ns ++ [KeyIs k]) with [NamespaceIs ns; KeyIs k] in *.
    unfold get. run_store. rewrite Hfind, Hts.
    unfold truthy_expiration. rewrite Hexp. simpl.
    do 2 eexists. split; [reflexivity | split].
    + simpl. apply find_update_first; [exact Hfind |].
      rewrite Hkeep. apply find_some in Hfind. apply Hfind.
    + reflexivity.
  - intros q0 w0. unfold refresh. rewrite Hts.
    unfold truthy_expiration. rewrite Hexp. reflexivity.
  - intros. apply search_leaves_world.
Qed.

Lemma refresh_window_is_ten_minutes_witness :
  _ttl_support Scenario.semantic_store = true /\
  (exists doc,
      find (matches Scenario.env
              (_namespace_query ["articles"]
                 ++ [KeyIs "1b4e28ba-2fa1-41d2-883f-0016d3cca427"]))
        (collection Scenario.world_A) = Some doc /\
      d_expiration doc = Some (Some 1700000301000000%Z)) /\
  exists w' doc',
    fst (get Scenario.env Scenario.semantic_store ["articles"]
           "1b4e28ba-2fa1-41d2-883f-0016d3cca427" (Some true) Scenario.world_A)
    = Returns (Some {| value := Scenario.article_A; key := "a1";
                       item_namespace := ["articles"];
                       created_at := Some 1700000000000000%Z;
                       updated_at := Some 1700000000000000%Z |}) /\
    snd (get Scenario.env Scenario.semantic_store ["articles"]
           "1b4e28ba-2fa1-41d2-883f-0016d3cca427" (Some true) Scenario.world_A)
    = w' /\
    find (matches Scenario.env
            (_namespace_query ["articles"]
               ++ [KeyIs "1b4e28ba-2fa1-41d2-883f-0016d3cca427"]))
      (collection w') = Some doc' /\
    expiration_of doc' = Some 1700000602000000%Z.
Proof.
  split; [reflexivity | split; [eexists; split; reflexivity |]].
  destruct (refresh_window_is_ten_minutes Scenario.env Scenario.semantic_store
              ["articles"] "1b4e28ba-2fa1-41d2-883f-0016d3cca427"
              Scenario.world_A _ 1700000301000000%Z eq_refl eq_refl eq_refl)
    as [(w' & doc' & Hget & Hfind & Hexp) _].
  exists w', doc'. rewrite Hget. repeat split; assumption.
Defined.

(** C10, as stated, fails for search: a search with [refresh_ttl] on a store
    with TTL support returns a record that carries an expiration and leaves
    that expiration as it was, five minutes after the write, not ten minutes
    after the search. *)
Lemma search_leaves_expiration_alone :
  exists items,
    search Scenario.env Scenario.text_store ["articles"] None None 10 0
      (Some true) Scenario.world_A = (Returns items, Scenario.world_A) /\
    map s_value items = [Scenario.article_A] /\
    map expiration_of (collection Scenario.world_A) = [Some 1700000301000000%Z] /\
    (utcnow Scenario.env (ticks Scenario.world_A) + 10 * 60000000)%Z
    = 1700000602000000%Z /\
    map expiration_of (collection Scenario.world_A)
    <> [Some (utcnow Scenario.env (ticks Scenario.world_A) + 10 * 60000000)%Z].
Proof.
  eexists. split; [vm_compute; reflexivity |].
  repeat split. intros H. vm_compute in H. discriminate H.
Qed.

(** The semantic branch behaves the same: the document the vector query
    returns has lost its expiration to the projection. *)
Example vector_documents_carry_no_expiration :
  exists items,
    search Scenario.env Scenario.semantic_store ["articles"] (Some "margin") None
      10 0 (Some true) Scenario.world_A = (Returns items, Scenario.world_A) /\
    map s_value items = [Scenario.article_A] /\
    map expiration_of (collection Scenario.world_A) = [Some 1700000301000000%Z].
Proof.
  eexists. split; [vm_compute; reflexivity |].
  repeat split.
Qed.

(** ** Namespace enumeration *)

Section Paging.

Context {A : Type}.

Lemma In_firstn (x : A) (n : nat) :
  forall l, In x (firstn n l) -> In x l.
Proof.
  induction n as [|n IH]; intros [|a l]; simpl; try tauto.
  intros [-> | H]; [left; reflexivity | right; apply IH; exact H].
Qed.

Lemma In_skipn (x : A) (n : nat) :
  forall l, In x (skipn n l) -> In x l.
Proof.
  induction n as [|n IH]; intros [|a l]; simpl; try tauto.
  intros H. right. apply IH. exact H.
Qed.


Variable R : A -> A -> Prop.




End Paging.




Example list_namespaces_truncates_then_deduplicates :
  fst (list_namespaces Scenario.env Scenario.semantic_store None None (Some 1) 100 0
         {| collection :=
              [ {| _id := 0; d_namespace := ["memories"; "u2"]; d_key := "k0";
                   d_logical_key := Some "a"; d_value := PDict [];
                   d_created := None; d_expiration := None; d_indexed := None;
                   d_embedding := None; d_score := None |};
                {| _id := 1; d_namespace := ["articles"; "2024"]; d_key := "k1";
                   d_logical_key := Some "b"; d_value := PDict [];
                   d_created := None; d_expiration := None; d_indexed := None;
                   d_embedding := None; d_score := None |};
                {| _id := 2; d_namespace := ["articles"; "2025"]; d_key := "k2";
                   d_logical_key := Some "c"; d_value := PDict [];
                   d_created := None; d_expiration := None; d_indexed := None;
                   d_embedding := None; d_score := None |} ];
            oids := 3; uuids := 3; ticks := 3 |})
  = Returns [["articles"]; ["memories"]].
Proof. reflexivity. Qed.

(** ** Batch *)










Example batch_scenario :
  fst (batch Scenario.env Scenario.semantic_store
         [GetOp ["articles"] "a1" None;
          PutOp ["articles"] "a2" (Some Scenario.article_B) None NOT_PROVIDED;
          OtherOp (PStr "not an op");
          PutOp ["articles"] "a1" None None NOT_PROVIDED;
          ListNamespacesOp None (Some 1) 100 0]
         Scenario.world_A)
  = Returns [ResNone; ResNone; ResNone; ResNone; ResNamespaces [["articles"]]].
Proof. vm_compute. reflexivity. Qed.

(** * Further properties of the store *)

(** ** Namespace addressing *)

Lemma namespace_eqb_eq (a b : namespace) : namespace_eqb a b = true <-> a = b.
Proof.
  unfold namespace_eqb. destruct (list_eq_dec string_dec a b); split;
    intros H; try reflexivity; try assumption; try discriminate; contradiction.
Qed.

Lemma skipn_nth_error {A : Type} (i : nat) :
  forall l : list A,
    skipn i l =
    match nth_error l i with Some y => y :: skipn (S i) l | None => [] end.
Proof.
  induction i as [|i IH]; intros [|a l]; try reflexivity.
  simpl nth_error. rewrite skipn_cons, IH.
  destruct (nth_error l i); reflexivity.
Qed.

Lemma prefix_clauses_from (E : environment) (doc : document) (p : namespace) :
  forall i,
    forallb (fun c => clause_matches E c doc)
      (map (fun ip => NamespaceAt (fst ip) (snd ip)) (enumerate_from i p)) = true
    <-> firstn (List.length p) (skipn i (d_namespace doc)) = p.
Proof.
  induction p as [|x p IH]; intros i; simpl.
  - split; reflexivity.
  - rewrite andb_true_iff, IH, (skipn_nth_error i).
    destruct (nth_error (d_namespace doc) i) as [y|]; simpl.
    + rewrite String.eqb_eq. split.
      * intros [-> ->]. reflexivity.
      * intros H. injection H as Hy Hp. split; assumption.
    + split; [intros [H _]; discriminate H | intros H; discriminate H].
Qed.

Lemma prefix_query_matches (E : environment) (namespace_prefix : namespace)
  (doc : document) :
  matches E (_namespace_prefix_query namespace_prefix) doc = true <->
  exists rest, d_namespace doc = namespace_prefix ++ rest.
Proof.
  unfold matches, _namespace_prefix_query. rewrite prefix_clauses_from. simpl.
  split.
  - intros H. exists (skipn (List.length namespace_prefix) (d_namespace doc)).
    rewrite <- H at 1. symmetry. apply firstn_skipn.
  - intros [rest ->]. rewrite firstn_app, firstn_all, Nat.sub_diag. simpl.
    apply app_nil_r.
Qed.

(** The query [_namespace_prefix_query] builds selects the documents whose
    namespace begins, position by position, with the given segments; the
    empty prefix selects every document. *)
Theorem prefix_query_selects_prefixed_namespaces (E : environment)
  (namespace_prefix : namespace) (doc : document) :
  (matches E (_namespace_prefix_query namespace_prefix) doc = true <->
   exists rest, d_namespace doc = namespace_prefix ++ rest) /\
  matches E (_namespace_prefix_query []) doc = true.
Proof. split; [apply prefix_query_matches | reflexivity]. Qed.

(** The query [_namespace_query] builds, with the key clause [get] and
    [delete] add, selects the documents with exactly that namespace and that
    storage key. *)
Lemma key_query_matches (E : environment) (ns : namespace) (k : string)
  (doc : document) :
  matches E (_namespace_query ns ++ [KeyIs k]) doc = true <->
  d_namespace doc = ns /\ d_key doc = k.
Proof.
  unfold matches. simpl. rewrite andb_true_r, andb_true_iff.
  rewrite namespace_eqb_eq, String.eqb_eq. reflexivity.
Qed.

Lemma matches_suffix_ends (suffix ns : namespace) :
  matches_suffix suffix ns = true <-> exists front, ns = front ++ suffix.
Proof.
  unfold matches_suffix. split.
  - destruct (Nat.leb (List.length suffix) (List.length ns)); [|discriminate].
    intros H. apply namespace_eqb_eq in H.
    exists (firstn (List.length ns - List.length suffix) ns).
    rewrite <- H at 2. symmetry. apply firstn_skipn.
  - intros [front ->]. rewrite length_app.
    replace (Nat.leb (List.length suffix) (List.length front + List.length suffix))
      with true by (symmetry; apply Nat.leb_le; lia).
    replace (List.length front + List.length suffix - List.length suffix)
      with (List.length front) by lia.
    apply namespace_eqb_eq.
    rewrite skipn_app, skipn_all, Nat.sub_diag. reflexivity.
Qed.

(** The suffix test of [list_namespaces] keeps the namespaces that end with
    the suffix; a namespace shorter than the suffix is never kept. *)
Theorem matches_suffix_iff_ends_with (suffix ns : namespace) :
  (matches_suffix suffix ns = true <-> exists front, ns = front ++ suffix) /\
  (List.length ns < List.length suffix -> matches_suffix suffix ns = false).
Proof.
  split; [apply matches_suffix_ends |].
  intros Hlt. unfold matches_suffix.
  replace (Nat.leb (List.length suffix) (List.length ns)) with false
    by (symmetry; apply Nat.leb_gt; exact Hlt).
  reflexivity.
Qed.

Lemma matches_suffix_iff_ends_with_witness :
  List.length ["2024"] < List.length ["articles"; "drafts"] /\
  matches_suffix ["articles"; "drafts"] ["2024"] = false.
Proof.
  split; [simpl; lia |].
  apply (matches_suffix_iff_ends_with ["articles"; "drafts"] ["2024"]).
  simpl. lia.
Defined.

(** ** The extracted text *)













(** ** Get, put and delete on the collection *)

Lemma world_eta (w : world) :
  {| collection := collection w; oids := oids w; uuids := uuids w;
     ticks := ticks w |} = w.
Proof. destruct w; reflexivity. Qed.

Lemma get_not_found (E : environment) (self : MongoDBBaseStore) (ns : namespace)
  (k : string) (refresh_ttl : option bool) (w : world) :
  find (matches E (_namespace_query ns ++ [KeyIs k])) (collection w) = None ->
  get E self ns k refresh_ttl w = (Returns None, w).
Proof.
  intros H. unfold get. run_store.
  change [NamespaceIs ns; KeyIs k] with (_namespace_query ns ++ [KeyIs k]).
  rewrite H. reflexivity.
Qed.

Lemma get_found (E : environment) (self : MongoDBBaseStore) (ns : namespace)
  (k : string) (refresh_ttl : option bool) (w : world) (doc : document) :
  find (matches E (_namespace_query ns ++ [KeyIs k])) (collection w) = Some doc ->
  fst (get E self ns k refresh_ttl w) = Returns (Some (item_of doc)).
Proof.
  intros H. unfold get. run_store.
  change [NamespaceIs ns; KeyIs k] with (_namespace_query ns ++ [KeyIs k]).
  rewrite H.
  destruct (truthy_bool refresh_ttl && _ttl_support self && truthy_expiration doc);
    reflexivity.
Qed.

(** What a get leaves behind: the world as it was, or the collection with
    the expiration of the first matching document set. *)
Lemma get_world (E : environment) (self : MongoDBBaseStore) (ns : namespace)
  (k : string) (refresh_ttl : option bool) (w : world) :
  snd (get E self ns k refresh_ttl w) = w \/
  (truthy_bool refresh_ttl = true /\ _ttl_support self = true /\
   exists e,
     snd (get E self ns k refresh_ttl w)
     = {| collection :=
            update_first E (_namespace_query ns ++ [KeyIs k])
              (set_expiration e) (collection w);
          oids := oids w; uuids := uuids w; ticks := S (ticks w) |}).
Proof.
  unfold get. run_store.
  destruct (find _ (collection w)) as [doc|]; [|left; reflexivity].
  destruct (truthy_bool refresh_ttl) eqn:Hr; [|left; reflexivity].
  destruct (_ttl_support self) eqn:Hts; [|left; reflexivity].
  destruct (truthy_expiration doc); [|left; reflexivity].
  right. simpl. repeat split. eexists. reflexivity.
Qed.

Lemma map_update_first {B : Type} (E : environment) (q : query)
  (f : document -> B) (g : document -> document) (docs : list document) :
  (forall doc, f (g doc) = f doc) ->
  map f (update_first E q g docs) = map f docs.
Proof.
  intros Hfg. induction docs as [|doc rest IH]; simpl; [reflexivity |].
  destruct (matches E q doc); simpl; [rewrite Hfg | rewrite IH]; reflexivity.
Qed.

Lemma find_app_last {A : Type} (f : A -> bool) (l : list A) (x : A) :
  (forall y, In y l -> f y = false) -> f x = true -> find f (l ++ [x]) = Some x.
Proof.
  intros Hl Hx. induction l as [|y l IH]; simpl.
  - rewrite Hx. reflexivity.
  - rewrite (Hl y (or_introl eq_refl)). apply IH.
    intros z Hz. apply Hl. right. exact Hz.
Qed.

Lemma delete_first_no_match (E : environment) (q : query) (docs : list document) :
  (forall doc, In doc docs -> matches E q doc = false) ->
  delete_first E q docs = docs.
Proof.
  intros H. induction docs as [|doc rest IH]; simpl; [reflexivity |].
  rewrite (H doc (or_introl eq_refl)). f_equal. apply IH.
  intros d Hd. apply H. right. exact Hd.
Qed.

Lemma delete_first_split (E : environment) (q : query) (docs : list document)
  (doc : document) :
  find (matches E q) docs = Some doc ->
  exists before after,
    docs = before ++ doc :: after /\
    delete_first E q docs = before ++ after /\
    (forall d, In d before -> matches E q d = false).
Proof.
  induction docs as [|d rest IH]; simpl; [discriminate |].
  destruct (matches E q d) eqn:Hd.
  - intros H. inversion H; subst. exists [], rest. repeat split.
    intros x [].
  - intros H. destruct (IH H) as (before & after & Hsplit & Hdel & Hno).
    exists (d :: before), after. simpl. rewrite Hsplit at 1. rewrite Hdel.
    repeat split. intros x [<- | Hx]; [exact Hd | apply Hno; exact Hx].
Qed.

(** Round trip through the storage key: the record a put writes is what a
    get with the UUID drawn for it returns, with the caller's key as the
    item's key, provided no older document has that namespace and UUID. *)
Theorem put_then_get_by_storage_key (E : environment) (self : MongoDBBaseStore)
  (ns : namespace) (k : string) (v : pyvalue) (index : option index_arg)
  (ttl : ttl_arg) (refresh_ttl : option bool) (w : world) :
  well_formed self ->
  (forall doc, In doc (collection w) ->
               d_namespace doc = ns -> d_key doc <> uuid4 E (uuids w)) ->
  exists w',
    put E self ns k v index ttl w = (Returns tt, w') /\
    fst (get E self ns (uuid4 E (uuids w)) refresh_ttl w')
    = Returns (Some {| value := v; key := k; item_namespace := ns;
                       created_at := Some (utcnow E (ticks w));
                       updated_at := Some (utcnow E (ticks w)) |}).
Proof.
  intros Hwf Hold.
  destruct (put_inserts E self ns k v index ttl w Hwf)
    as (doc & w' & Hput & Hcoll & _ & Hns & Hkey & Hlk & Hv & Hcr & _).
  exists w'. split; [exact Hput |].
  rewrite (get_found E self ns (uuid4 E (uuids w)) refresh_ttl w' doc).
  - unfold item_of, doc_key. rewrite Hlk, Hv, Hns, Hcr. reflexivity.
  - rewrite Hcoll. apply find_app_last.
    + intros d Hd. destruct (matches E _ d) eqn:Hm; [|reflexivity].
      apply key_query_matches in Hm as [Hdn Hdk].
      exfalso. exact (Hold d Hd Hdn Hdk).
    + apply key_query_matches. split; assumption.
Qed.

Lemma put_then_get_by_storage_key_witness :
  well_formed Scenario.semantic_store /\
  exists w',
    put Scenario.env Scenario.semantic_store ["articles"] "a1"
      Scenario.article_B None NOT_PROVIDED Scenario.world_A = (Returns tt, w') /\
    fst (get Scenario.env Scenario.semantic_store ["articles"]
           "6fa459ea-ee8a-4ca4-894e-db77e160355e" None w')
    = Returns (Some {| value := Scenario.article_B; key := "a1";
                       item_namespace := ["articles"];
                       created_at := Some 1700000002000000%Z;
                       updated_at := Some 1700000002000000%Z |}).
Proof.
  assert (well_formed Scenario.semantic_store) as Hwf.
  { intros _. exists Scenario.embed_text. reflexivity. }
  split; [exact Hwf |].
  apply (put_then_get_by_storage_key Scenario.env Scenario.semantic_store
           ["articles"] "a1" Scenario.article_B None NOT_PROVIDED None
           Scenario.world_A Hwf).
  intros doc [<- | []] _ H. discriminate H.
Defined.

(** A delete with the key a record was written under does not remove it:
    the delete looks for a storage key, and leaves the world as it is when
    no document of the namespace has the caller's key as storage key. *)
Theorem delete_after_put_keeps_record (E : environment) (self : MongoDBBaseStore)
  (ns : namespace) (k : string) (v : pyvalue) (index : option index_arg)
  (ttl : ttl_arg) (w : world) :
  well_formed self ->
  (forall doc, In doc (collection w) -> d_namespace doc = ns -> d_key doc <> k) ->
  uuid4 E (uuids w) <> k ->
  exists doc w',
    put E self ns k v index ttl w = (Returns tt, w') /\
    delete E self ns k w' = (Returns tt, w') /\
    In doc (collection w') /\ d_logical_key doc = Some k /\ d_value doc = v.
Proof.
  intros Hwf Hold Hfresh.
  destruct (put_inserts E self ns k v index ttl w Hwf)
    as (doc & w' & Hput & Hcoll & _ & Hns & Hkey & Hlk & Hv & _).
  exists doc, w'. split; [exact Hput | split; [|split; [|split]]];
    try assumption.
  - unfold delete. run_store. rewrite delete_first_no_match.
    + rewrite world_eta. reflexivity.
    + rewrite Hcoll. intros d Hd.
      destruct (matches E _ d) eqn:Hm; [|reflexivity].
      change [NamespaceIs ns; KeyIs k] with (_namespace_query ns ++ [KeyIs k]) in Hm.
      apply key_query_matches in Hm as [Hdn Hdk]. exfalso.
      apply in_app_or in Hd as [Hd | [<- | []]].
      * exact (Hold d Hd Hdn Hdk).
      * apply Hfresh. rewrite <- Hkey. exact Hdk.
  - rewrite Hcoll. apply in_or_app. right. left. reflexivity.
Qed.

Lemma delete_after_put_keeps_record_witness :
  well_formed Scenario.semantic_store /\
  "1b4e28ba-2fa1-41d2-883f-0016d3cca427" <> "a1" /\
  exists doc w',
    put Scenario.env Scenario.semantic_store ["articles"] "a1"
      Scenario.article_A None NOT_PROVIDED Scenario.empty_world = (Returns tt, w') /\
    delete Scenario.env Scenario.semantic_store ["articles"] "a1" w'
    = (Returns tt, w') /\
    In doc (collection w') /\ d_logical_key doc = Some "a1" /\
    d_value doc = Scenario.article_A.
Proof.
  assert (well_formed Scenario.semantic_store) as Hwf.
  { intros _. exists Scenario.embed_text. reflexivity. }
  assert ("1b4e28ba-2fa1-41d2-883f-0016d3cca427" <> "a1") as Hne
    by (intros H; discriminate H).
  split; [exact Hwf | split; [exact Hne |]].
  apply (delete_after_put_keeps_record Scenario.env Scenario.semantic_store
           ["articles"] "a1" Scenario.article_A None NOT_PROVIDED
           Scenario.empty_world Hwf).
  - intros doc [].
  - exact Hne.
Defined.

Lemma find_all_false {A : Type} (f : A -> bool) (l : list A) :
  (forall y, In y l -> f y = false) -> find f l = None.
Proof.
  intros H. induction l as [|y l IH]; simpl; [reflexivity |].
  rewrite (H y (or_introl eq_refl)). apply IH.
  intros z Hz. apply H. right. exact Hz.
Qed.

Lemma delete_first_match_cases (E : environment)
  (self : MongoDBBaseStore) (ns : namespace) (k : string) (w : world) :
  exists w',
    delete E self ns k w = (Returns tt, w') /\
    (((forall doc, In doc (collection w) ->
                   ~ (d_namespace doc = ns /\ d_key doc = k)) /\ w' = w)
     \/
     (exists before doc after,
         collection w = before ++ doc :: after /\
         collection w' = before ++ after /\
         d_namespace doc = ns /\ d_key doc = k /\
         (forall d, In d before -> ~ (d_namespace d = ns /\ d_key d = k)))).
Proof.
  unfold delete. run_store. eexists. split; [reflexivity |]. simpl.
  change [NamespaceIs ns; KeyIs k] with (_namespace_query ns ++ [KeyIs k]).
  destruct (find (matches E (_namespace_query ns ++ [KeyIs k])) (collection w))
    as [doc|] eqn:Hfind.
  - right. destruct (delete_first_split E _ _ doc Hfind)
      as (before & after & Hsplit & Hdel & Hno).
    exists before, doc, after. rewrite Hdel.
    apply find_some in Hfind as [_ Hm]. apply key_query_matches in Hm as [Hn Hk].
    repeat split; try assumption.
    intros d Hd Hboth. apply (proj2 (key_query_matches E ns k d)) in Hboth.
    rewrite (Hno d Hd) in Hboth. discriminate Hboth.
  - left. pose proof (find_none _ _ Hfind) as Hno. split.
    + intros doc Hdoc Hboth. apply (proj2 (key_query_matches E ns k doc)) in Hboth.
      rewrite (Hno doc Hdoc) in Hboth. discriminate Hboth.
    + rewrite delete_first_no_match by exact Hno. apply world_eta.
Qed.

(** A delete removes the first document that has the namespace and the
    storage key, and nothing else; when there is none it changes nothing. *)
Theorem delete_removes_first_match_only (E : environment)
  (self : MongoDBBaseStore) (ns : namespace) (k : string) (w : world) :
  exists w',
    delete E self ns k w = (Returns tt, w') /\
    (((forall doc, In doc (collection w) ->
                   ~ (d_namespace doc = ns /\ d_key doc = k)) /\ w' = w)
     \/
     (exists before doc after,
         collection w = before ++ doc :: after /\
         collection w' = before ++ after /\
         d_namespace doc = ns /\ d_key doc = k /\
         (forall d, In d before -> ~ (d_namespace d = ns /\ d_key d = k)))).
Proof. apply delete_first_match_cases. Qed.

(** Delete then get: when storage keys are pairwise distinct, a get that
    follows a delete of the same namespace and key finds nothing. *)
Theorem delete_then_get_is_absent (E : environment) (self : MongoDBBaseStore)
  (ns : namespace) (k : string) (refresh_ttl : option bool) (w : world) :
  NoDup (map d_key (collection w)) ->
  exists w',
    delete E self ns k w = (Returns tt, w') /\
    get E self ns k refresh_ttl w' = (Returns None, w').
Proof.
  intros Hnd.
  destruct (delete_first_match_cases E self ns k w)
    as (w' & Hdel & Hcases).
  exists w'. split; [exact Hdel |].
  apply get_not_found, find_all_false. intros d Hd.
  destruct (matches E _ d) eqn:Hm; [|reflexivity].
  apply key_query_matches in Hm. exfalso.
  destruct Hcases as [[Hno ->] | (before & doc & after & Hw & Hw' & Hn & Hk & Hbefore)].
  - exact (Hno d Hd Hm).
  - rewrite Hw' in Hd. rewrite Hw, map_app in Hnd. simpl in Hnd.
    apply NoDup_remove_2 in Hnd. apply in_app_or in Hd as [Hd | Hd].
    + exact (Hbefore d Hd Hm).
    + apply Hnd. apply in_or_app. right.
      destruct Hm as [_ Hdk]. rewrite Hk, <- Hdk. apply in_map. exact Hd.
Qed.

Lemma delete_then_get_is_absent_witness :
  NoDup (map d_key (collection Scenario.world_AB)) /\
  exists w',
    delete Scenario.env Scenario.semantic_store ["articles"]
      "1b4e28ba-2fa1-41d2-883f-0016d3cca427" Scenario.world_AB = (Returns tt, w') /\
    get Scenario.env Scenario.semantic_store ["articles"]
      "1b4e28ba-2fa1-41d2-883f-0016d3cca427" None w' = (Returns None, w').
Proof.
  assert (NoDup (map d_key (collection Scenario.world_AB))) as Hnd.
  { simpl. constructor.
    - intros [H | []]. discriminate H.
    - constructor; [intros [] | constructor]. }
  split; [exact Hnd |].
  apply (delete_then_get_is_absent Scenario.env Scenario.semantic_store
           ["articles"] "1b4e28ba-2fa1-41d2-883f-0016d3cca427" None
           Scenario.world_AB Hnd).
Defined.

(** A get never adds, removes or reorders documents and never touches a
    field other than the expiration; it leaves the whole world as it is
    unless a refresh was asked for on a store with TTL support. *)
Theorem get_changes_only_expirations (E : environment) (self : MongoDBBaseStore)
  (ns : namespace) (k : string) (refresh_ttl : option bool) (w : world) :
  map without_expiration (collection (snd (get E self ns k refresh_ttl w)))
  = map without_expiration (collection w) /\
  oids (snd (get E self ns k refresh_ttl w)) = oids w /\
  uuids (snd (get E self ns k refresh_ttl w)) = uuids w /\
  (truthy_bool refresh_ttl && _ttl_support self = false ->
   snd (get E self ns k refresh_ttl w) = w).
Proof.
  destruct (get_world E self ns k refresh_ttl w)
    as [-> | (Hr & Hts & e & ->)].
  - repeat split.
  - simpl. repeat split.
    + apply map_update_first. intros doc. reflexivity.
    + rewrite Hr, Hts. discriminate.
Qed.

Lemma get_changes_only_expirations_witness :
  truthy_bool None && _ttl_support Scenario.semantic_store = false /\
  snd (get Scenario.env Scenario.semantic_store ["articles"]
         "1b4e28ba-2fa1-41d2-883f-0016d3cca427" None Scenario.world_A)
  = Scenario.world_A.
Proof.
  split; [reflexivity |].
  apply (get_changes_only_expirations Scenario.env Scenario.semantic_store
           ["articles"] "1b4e28ba-2fa1-41d2-883f-0016d3cca427" None
           Scenario.world_A).
  reflexivity.
Defined.

(** ** What a batch keeps true *)

Lemma snd_bind_ret {A B : Type} (m : M A) (f : A -> B) (w : world) :
  snd (bind m (fun x => ret (f x)) w) = snd (m w).
Proof. unfold bind, ret. destruct (m w) as [[a|e] w']; reflexivity. Qed.

Lemma dispatch_world (E : environment) (self : MongoDBBaseStore) (o : op)
  (w : world) :
  snd (dispatch E self o w) =
  match o with
  | GetOp ns k refresh_ttl => snd (get E self ns k refresh_ttl w)
  | PutOp ns k (Some v) index ttl => snd (put E self ns k v index ttl w)
  | PutOp ns k None _ _ => snd (delete E self ns k w)
  | _ => w
  end.
Proof.
  destruct o as [ns k r | np q flt l off r | ns k [v|] idx ttl | mc md l off | obj];
    simpl.
  - apply (snd_bind_ret (get E self ns k r)
             (fun x => match x with Some i => ResItem i | None => ResNone end)).
  - rewrite (snd_bind_ret (search E self np q flt l off r) ResSearch).
    apply search_leaves_world.
  - apply (snd_bind_ret (put E self ns k v idx ttl) (fun _ => ResNone)).
  - apply (snd_bind_ret (delete E self ns k) (fun _ => ResNone)).
  - unfold list_namespaces, distinct_namespace, bind, ret. reflexivity.
  - reflexivity.
Qed.

Lemma batch_loop_keeps (E : environment) (self : MongoDBBaseStore)
  (P : world -> Prop) :
  (forall o w, P w -> P (snd (dispatch E self o w))) ->
  forall ops acc w, P w -> P (snd (batch_loop E self ops acc w)).
Proof.
  intros Hstep. induction ops as [|o rest IH]; intros acc w Hw; simpl.
  - exact Hw.
  - unfold bind. specialize (Hstep o w Hw).
    destruct (dispatch E self o w) as [[r|e] w1]; simpl in Hstep.
    + apply IH. exact Hstep.
    + exact Hstep.
Qed.

(** The world a put leaves, on any store object: one more UUID drawn, and
    either the collection as it was (the call raised) or one document more. *)
Lemma put_world (E : environment) (self : MongoDBBaseStore) (ns : namespace)
  (k : string) (v : pyvalue) (index : option index_arg) (ttl : ttl_arg)
  (w : world) :
  uuids (snd (put E self ns k v index ttl w)) = S (uuids w) /\
  ((collection (snd (put E self ns k v index ttl w)) = collection w /\
    oids (snd (put E self ns k v index ttl w)) = oids w)
   \/
   (exists doc,
       collection (snd (put E self ns k v index ttl w)) = collection w ++ [doc] /\
       oids (snd (put E self ns k v index ttl w)) = S (oids w) /\
       _id doc = oids w /\
       d_key doc = uuid4 E (uuids w) /\
       (_ttl_support self = false -> d_expiration doc = None))).
Proof.
  unfold put. run_store.
  destruct ttl; destruct (_ttl_support self); simpl;
    destruct (is_not_False index && semantic_enabled self); simpl;
    try destruct (PyStr.truthy _); simpl;
    try destruct (_embedding_fn self); simpl;
    (split; [reflexivity |]);
    first [ left; split; reflexivity
          | right; eexists; repeat split; try reflexivity; intros H; discriminate H ].
Qed.

Lemma delete_first_incl (E : environment) (q : query) (docs : list document)
  (doc : document) :
  In doc (delete_first E q docs) -> In doc docs.
Proof.
  induction docs as [|d rest IH]; simpl; [tauto |].
  destruct (matches E q d); simpl; [tauto |].
  intros [-> | H]; [left; reflexivity | right; apply IH; exact H].
Qed.

(** On a store without TTL support no operation of a batch ever gives a
    document an expiration field: if no document has one before the batch,
    none has one after it, whatever TTLs and refresh flags the ops carry. *)
Theorem batch_without_ttl_support_sets_no_expiration (E : environment)
  (self : MongoDBBaseStore) (ops : list op) (w : world) :
  _ttl_support self = false ->
  Forall (fun doc => d_expiration doc = None) (collection w) ->
  Forall (fun doc => d_expiration doc = None)
    (collection (snd (batch E self ops w))).
Proof.
  intros Hts Hw0. unfold batch.
  apply (batch_loop_keeps E self
           (fun w => Forall (fun doc => d_expiration doc = None) (collection w)));
    [|exact Hw0].
  clear w Hw0. intros o w Hw. rewrite dispatch_world.
  destruct o as [ns k r | np q flt l off r | ns k [v|] idx ttl | mc md l off | obj];
    try exact Hw.
  - destruct (get_world E self ns k r w) as [-> | (_ & Hts' & _)];
      [exact Hw | congruence].
  - destruct (put_world E self ns k v idx ttl w)
      as (_ & [[-> _] | (doc & -> & _ & _ & _ & Hexp)]); [exact Hw |].
    apply Forall_app. split; [exact Hw |].
    constructor; [exact (Hexp Hts) | constructor].
  - unfold delete. run_store. apply Forall_forall. intros d Hd.
    apply delete_first_incl in Hd.
    exact (proj1 (Forall_forall _ _) Hw d Hd).
Qed.

Lemma batch_without_ttl_support_sets_no_expiration_witness :
  _ttl_support
    {| _ttl_support := false; supports_ttl := false;
       _index_config := Some Scenario.graph_index_config;
       semantic_enabled := true; _embedding_fn := Some Scenario.embed_text;
       index_name := Some "store_index" |} = false /\
  Forall (fun doc => d_expiration doc = None) (collection Scenario.empty_world) /\
  Forall (fun doc => d_expiration doc = None)
    (collection
       (snd (batch Scenario.env
               {| _ttl_support := false; supports_ttl := false;
                  _index_config := Some Scenario.graph_index_config;
                  semantic_enabled := true;
                  _embedding_fn := Some Scenario.embed_text;
                  index_name := Some "store_index" |}
               [PutOp ["articles"] "a1" (Some Scenario.article_A) None (TtlMinutes 5);
                GetOp ["articles"] "1b4e28ba-2fa1-41d2-883f-0016d3cca427" (Some true);
                PutOp ["articles"] "a2" (Some Scenario.article_B) None TtlNone]
               Scenario.empty_world))).
Proof.
  split; [reflexivity | split; [constructor |]].
  apply batch_without_ttl_support_sets_no_expiration; [reflexivity | constructor].
Defined.

Lemma map_delete_first {B : Type} (E : environment) (q : query)
  (f : document -> B) (docs : list document) :
  (forall x, In x (map f (delete_first E q docs)) -> In x (map f docs)) /\
  (NoDup (map f docs) -> NoDup (map f (delete_first E q docs))).
Proof.
  assert (forall x, In x (map f (delete_first E q docs)) -> In x (map f docs)) as Hin.
  { intros x Hx. apply in_map_iff in Hx as (d & <- & Hd).
    apply in_map. apply (delete_first_incl E q docs d Hd). }
  split; [exact Hin |].
  clear Hin. induction docs as [|d rest IH]; simpl; [auto |].
  intros Hnd. inversion Hnd as [|? ? Hnotin Hrest]; subst.
  destruct (matches E q d); [exact Hrest |].
  simpl. constructor; [|apply IH; exact Hrest].
  intros Hx. apply Hnotin.
  apply in_map_iff in Hx as (d' & Hd' & Hin').
  rewrite <- Hd'. apply in_map. apply (delete_first_incl E q rest d' Hin').
Qed.

Lemma keys_fresh_step (E : environment) (self : MongoDBBaseStore) (o : op)
  (w : world) :
  (forall i j, uuid4 E i = uuid4 E j -> i = j) ->
  keys_fresh E w -> keys_fresh E (snd (dispatch E self o w)).
Proof.
  intros Hinj (Hk & Hdrawn & Hid & Hbelow). rewrite dispatch_world.
  destruct o as [ns k r | np q flt l off r | ns k [v|] idx ttl | mc md l off | obj];
    try (repeat split; assumption).
  - destruct (get_world E self ns k r w) as [-> | (_ & _ & e & ->)];
      [repeat split; assumption |].
    unfold keys_fresh. simpl.
    rewrite !map_update_first by (intros doc; reflexivity).
    repeat split; assumption.
  - destruct (put_world E self ns k v idx ttl w)
      as (Hu & [[Hc Ho] | (doc & Hc & Ho & Hdid & Hdk & _)]);
      unfold keys_fresh; rewrite Hu, Hc, Ho.
    + repeat split; try assumption.
      intros key Hkey. destruct (Hdrawn key Hkey) as (i & Hi & ->).
      exists i. split; [lia | reflexivity].
    + rewrite !map_app. simpl. rewrite Hdid, Hdk. repeat split.
      * apply NoDup_app; [exact Hk | constructor; [intros [] | constructor] |].
        intros key Hkey [<- | []].
        destruct (Hdrawn _ Hkey) as (i & Hi & Heq).
        apply Hinj in Heq. lia.
      * intros key Hkey. apply in_app_or in Hkey as [Hkey | [<- | []]].
        -- destruct (Hdrawn key Hkey) as (i & Hi & ->).
           exists i. split; [lia | reflexivity].
        -- exists (uuids w). split; [lia | reflexivity].
      * apply NoDup_app; [exact Hid | constructor; [intros [] | constructor] |].
        intros i Hi [<- | []]. specialize (Hbelow _ Hi). lia.
      * intros i Hi. apply in_app_or in Hi as [Hi | [<- | []]].
        -- specialize (Hbelow i Hi). lia.
        -- lia.
  - unfold delete. run_store. unfold keys_fresh. simpl.
    destruct (map_delete_first E [NamespaceIs ns; KeyIs k] d_key (collection w))
      as [Hink Hndk].
    destruct (map_delete_first E [NamespaceIs ns; KeyIs k] _id (collection w))
      as [Hini Hndi].
    repeat split; auto.
Qed.

(** With a UUID source that never repeats, every batch keeps the storage
    keys of the collection pairwise distinct, and the [_id]s as well: a
    storage key or an [_id] names at most one document. *)
Theorem batch_keeps_storage_keys_distinct (E : environment)
  (self : MongoDBBaseStore) (ops : list op) (w : world) :
  (forall i j, uuid4 E i = uuid4 E j -> i = j) ->
  keys_fresh E w ->
  keys_fresh E (snd (batch E self ops w)) /\
  NoDup (map d_key (collection (snd (batch E self ops w)))) /\
  NoDup (map _id (collection (snd (batch E self ops w)))).
Proof.
  intros Hinj Hw.
  assert (keys_fresh E (snd (batch E self ops w))) as H.
  { unfold batch. apply (batch_loop_keeps E self (keys_fresh E)); [|exact Hw].
    intros o w0. apply keys_fresh_step. exact Hinj. }
  split; [exact H |]. destruct H as (Hk & _ & Hid & _). split; assumption.
Qed.

Lemma unary_injective (i : nat) : forall j, Scenario.unary i = Scenario.unary j -> i = j.
Proof.
  induction i as [|i IH]; intros [|j] H; simpl in H;
    try reflexivity; try discriminate.
  f_equal. apply IH. inversion H. reflexivity.
Qed.

Lemma batch_keeps_storage_keys_distinct_witness :
  (forall i j, uuid4 Scenario.env_counting i = uuid4 Scenario.env_counting j -> i = j) /\
  keys_fresh Scenario.env_counting Scenario.empty_world /\
  NoDup (map d_key
           (collection
              (snd (batch Scenario.env_counting Scenario.semantic_store
                      [PutOp ["articles"] "a1" (Some Scenario.article_A) None NOT_PROVIDED;
                       PutOp ["articles"] "a1" (Some Scenario.article_B) None NOT_PROVIDED;
                       GetOp ["articles"] "u" (Some true)]
                      Scenario.empty_world)))).
Proof.
  assert (keys_fresh Scenario.env_counting Scenario.empty_world) as Hfresh.
  { repeat split; simpl; try constructor; intros x []. }
  split; [exact unary_injective | split; [exact Hfresh |]].
  apply (batch_keeps_storage_keys_distinct Scenario.env_counting
           Scenario.semantic_store _ Scenario.empty_world unary_injective Hfresh).
Defined.

(** ** What namespaces and items come back *)


Lemma In_cursor_limit {A : Type} (x : A) (n : nat) (l : list A) :
  In x (cursor_limit n l) -> In x l.
Proof.
  destruct n; [tauto | apply In_firstn].
Qed.

Lemma matches_app (E : environment) (q1 q2 : query) (doc : document) :
  matches E (q1 ++ q2) doc = matches E q1 doc && matches E q2 doc.
Proof. unfold matches. apply forallb_app. Qed.

Lemma prefix_query_nil (p : namespace) : _namespace_prefix_query p = [] -> p = [].
Proof. destruct p; [reflexivity | discriminate]. Qed.

(** Every document a cursor yields is the projection of a stored document
    that matches the query, when the server's sort hands back documents it
    was given. *)
Lemma find_docs_origin (E : environment) (docs : list document) (q : query)
  (text : option string) (offset n : nat) (x : document) :
  (forall l, incl (sort_stage E l) l) ->
  In x (find_docs E docs q text offset n) ->
  exists d sc, In d docs /\ matches E q d = true /\ x = project sc d.
Proof.
  intros Hsort Hx. unfold find_docs, cursor_skip in Hx.
  apply In_cursor_limit, In_skipn, Hsort, in_map_iff in Hx as (d & <- & Hd).
  apply filter_In in Hd as [Hd Hm]. eauto.
Qed.

Lemma pipeline_docs_origin (E : environment) (candidates : list (document * Q))
  (namespace_prefix : namespace) (flt : option (list (string * pyvalue)))
  (offset limit : nat) (x : document) :
  (forall l, incl (sort_stage E l) l) ->
  In x (pipeline_docs E candidates
          (_namespace_prefix_query namespace_prefix ++ filter_clauses flt)
          offset limit) ->
  exists d sc, In (d, sc) candidates /\ x = project (Some sc) d /\
               exists rest, d_namespace d = namespace_prefix ++ rest.
Proof.
  intros Hsort Hx. unfold pipeline_docs in Hx.
  apply in_map_iff in Hx as (y & <- & Hy).
  apply In_firstn, In_skipn, Hsort in Hy.
  assert (In y (map (fun c => set_score (Some (snd c)) (fst c)) candidates) /\
          exists rest, d_namespace y = namespace_prefix ++ rest) as [Hin Hpre].
  { destruct (_namespace_prefix_query namespace_prefix ++ filter_clauses flt)
      as [|c0 cs] eqn:Hq.
    - split; [exact Hy |]. apply app_eq_nil in Hq as [Hp _].
      apply prefix_query_nil in Hp. subst. exists (d_namespace y). reflexivity.
    - apply filter_In in Hy as [Hy Hm]. split; [exact Hy |].
      rewrite <- Hq, matches_app in Hm. apply andb_true_iff in Hm as [Hm _].
      apply (proj1 (prefix_query_matches E namespace_prefix y)). exact Hm. }
  apply in_map_iff in Hin as ([d sc] & <- & Hc).
  exists d, sc. split; [exact Hc | split; [reflexivity | exact Hpre]].
Qed.

(** Where the items of a search come from. *)
Lemma search_items_origin (E : environment) (self : MongoDBBaseStore)
  (namespace_prefix : namespace) (qry : option string)
  (flt : option (list (string * pyvalue))) (limit offset : nat)
  (refresh_ttl : option bool) (w : world) :
  well_formed self ->
  (forall l, incl (sort_stage E l) l) ->
  exists items,
    search E self namespace_prefix qry flt limit offset refresh_ttl w
    = (Returns items, w) /\
    forall it, In it items ->
      exists d sc,
        it = search_item_of (project sc d) /\
        (exists rest, d_namespace d = namespace_prefix ++ rest) /\
        (In d (collection w) \/
         exists idx vec k candidates s,
           knnBeta E (collection w) idx vec k = Some candidates /\
           In (d, s) candidates).
Proof.
  intros Hwf Hsort.
  assert (forall cursor_q text off n x,
             In x (find_docs E (collection w)
                     (_namespace_prefix_query namespace_prefix ++ cursor_q)
                     text off n) ->
             exists d sc,
               search_item_of x = search_item_of (project sc d) /\
               (exists rest, d_namespace d = namespace_prefix ++ rest) /\
               (In d (collection w) \/
                exists idx vec k candidates s,
                  knnBeta E (collection w) idx vec k = Some candidates /\
                  In (d, s) candidates)) as Hcursor.
  { intros cursor_q text off n x Hx.
    apply (find_docs_origin E _ _ _ _ _ _ Hsort) in Hx as (d & sc & Hd & Hm & ->).
    rewrite matches_app in Hm. apply andb_true_iff in Hm as [Hm _].
    apply prefix_query_matches in Hm. exists d, sc. auto. }
  destruct (semantic_enabled self) eqn:Hsem.
  - destruct (Hwf Hsem) as [f Hf].
    rewrite (search_semantic_run E self f) by assumption.
    rewrite fallback_fill_run.
    set (docs := vector_docs E self f namespace_prefix qry flt limit offset w).
    assert (forall it, In it (map search_item_of docs) ->
              exists d sc,
                it = search_item_of (project sc d) /\
                (exists rest, d_namespace d = namespace_prefix ++ rest) /\
                (In d (collection w) \/
                 exists idx vec k candidates s,
                   knnBeta E (collection w) idx vec k = Some candidates /\
                   In (d, s) candidates)) as Hvec.
    { intros it Hit. apply in_map_iff in Hit as (x & <- & Hx).
      unfold docs, vector_docs in Hx.
      destruct (knnBeta E (collection w) (index_name self) (f (or_empty qry)) limit)
        as [candidates|] eqn:Hknn; [|destruct Hx].
      apply (pipeline_docs_origin E _ _ _ _ _ _ Hsort) in Hx
        as (d & s & Hc & -> & Hpre).
      exists d, (Some s). split; [reflexivity | split; [exact Hpre |]].
      right. exists (index_name self), (f (or_empty qry)), limit, candidates, s.
      split; assumption. }
    eexists. split; [reflexivity |].
    destruct (Nat.ltb (List.length (map search_item_of docs)) limit);
      [|exact Hvec].
    intros it Hit.
    destruct (fallback_loop_adds limit
                (find_docs E (collection w) (text_query namespace_prefix qry flt)
                   (text_of qry) offset
                   (limit - List.length (map search_item_of docs)))
                (map search_item_of docs) (seen_after docs []))
      as (added & Heq & _ & _ & Hsrc & _).
    rewrite Heq in Hit. apply in_app_or in Hit as [Hit | Hit];
      [exact (Hvec it Hit) |].
    destruct (Hsrc it Hit) as (x & Hx & ->).
    apply (Hcursor _ _ _ _ x Hx).
  - unfold search. rewrite Hsem. unfold find_cursor, bind, ret.
    eexists. split; [reflexivity |].
    intros it Hit. apply in_map_iff in Hit as (x & <- & Hx).
    apply (Hcursor _ _ _ _ x Hx).
Qed.

(** Every item a search returns is built from a document under the
    requested namespace prefix, a stored one or one the vector index
    answered with; the item carries that document's value and namespace,
    and as its key the document's storage key. *)
Theorem search_items_stem_from_documents (E : environment)
  (self : MongoDBBaseStore) (namespace_prefix : namespace) (qry : option string)
  (flt : option (list (string * pyvalue))) (limit offset : nat)
  (refresh_ttl : option bool) (w : world) :
  well_formed self ->
  (forall l, incl (sort_stage E l) l) ->
  exists items,
    search E self namespace_prefix qry flt limit offset refresh_ttl w
    = (Returns items, w) /\
    forall it, In it items ->
      exists d,
        s_key it = d_key d /\ s_value it = d_value d /\
        s_namespace it = d_namespace d /\
        (exists rest, s_namespace it = namespace_prefix ++ rest) /\
        (In d (collection w) \/
         exists idx vec k candidates s,
           knnBeta E (collection w) idx vec k = Some candidates /\
           In (d, s) candidates).
Proof.
  intros Hwf Hsort.
  destruct (search_items_origin E self namespace_prefix qry flt limit offset
              refresh_ttl w Hwf Hsort) as (items & Hrun & Horigin).
  exists items. split; [exact Hrun |].
  intros it Hit. destruct (Horigin it Hit) as (d & sc & -> & Hpre & Hfrom).
  exists d. repeat split; try assumption.
Qed.

Lemma search_items_stem_from_documents_witness :
  well_formed Scenario.semantic_store /\
  (forall l, incl (sort_stage Scenario.env l) l) /\
  exists items,
    search Scenario.env Scenario.semantic_store ["articles"] (Some "margin") None
      3 0 None Scenario.world_AB = (Returns items, Scenario.world_AB) /\
    forall it, In it items ->
      exists d,
        s_key it = d_key d /\ s_value it = d_value d /\
        s_namespace it = d_namespace d /\
        (exists rest, s_namespace it = ["articles"] ++ rest) /\
        (In d (collection Scenario.world_AB) \/
         exists idx vec k candidates s,
           knnBeta Scenario.env (collection Scenario.world_AB) idx vec k
           = Some candidates /\
           In (d, s) candidates).
Proof.
  assert (well_formed Scenario.semantic_store) as Hwf.
  { intros _. exists Scenario.embed_text. reflexivity. }
  assert (forall l, incl (sort_stage Scenario.env l) l) as Hsort
    by (intros l x Hx; exact Hx).
  split; [exact Hwf | split; [exact Hsort |]].
  apply (search_items_stem_from_documents Scenario.env Scenario.semantic_store
           ["articles"] (Some "margin") None 3 0 None Scenario.world_AB Hwf Hsort).
Defined.

(** A search under a namespace prefix that no stored document has returns
    the empty list and raises nothing, provided the vector index only
    answers with stored documents. *)
Theorem search_without_matching_namespace_is_empty (E : environment)
  (self : MongoDBBaseStore) (namespace_prefix : namespace) (qry : option string)
  (flt : option (list (string * pyvalue))) (limit offset : nat)
  (refresh_ttl : option bool) (w : world) :
  well_formed self ->
  (forall l, incl (sort_stage E l) l) ->
  (forall idx vec k candidates d s,
      knnBeta E (collection w) idx vec k = Some candidates ->
      In (d, s) candidates -> In d (collection w)) ->
  (forall d rest, In d (collection w) -> d_namespace d <> namespace_prefix ++ rest) ->
  search E self namespace_prefix qry flt limit offset refresh_ttl w = (Returns [], w).
Proof.
  intros Hwf Hsort Hknn Hnone.
  destruct (search_items_origin E self namespace_prefix qry flt limit offset
              refresh_ttl w Hwf Hsort) as (items & Hrun & Horigin).
  rewrite Hrun. destruct items as [|it rest]; [reflexivity |].
  exfalso.
  destruct (Horigin it (or_introl eq_refl)) as (d & sc & _ & [r Hpre] & Hfrom).
  assert (In d (collection w)) as Hd.
  { destruct Hfrom as [Hd | (idx & vec & k & cands & s & Hk & Hin)];
      [exact Hd | exact (Hknn idx vec k cands d s Hk Hin)]. }
  exact (Hnone d r Hd Hpre).
Qed.

Lemma search_without_matching_namespace_is_empty_witness :
  well_formed Scenario.semantic_store /\
  search Scenario.env Scenario.semantic_store ["memories"] (Some "margin") None
    3 0 None Scenario.world_AB = (Returns [], Scenario.world_AB).
Proof.
  assert (well_formed Scenario.semantic_store) as Hwf.
  { intros _. exists Scenario.embed_text. reflexivity. }
  split; [exact Hwf |].
  apply (search_without_matching_namespace_is_empty Scenario.env
           Scenario.semantic_store ["memories"] (Some "margin") None 3 0 None
           Scenario.world_AB Hwf).
  - intros l x Hx. exact Hx.
  - intros idx vec k candidates d s Hk Hin. simpl in Hk. inversion Hk; subst.
    clear Hk.
    destruct Hin as [Heq | [Heq | []]]; inversion Heq; subst;
      [left | right; left]; reflexivity.
  - intros d rest [<- | [<- | []]] H; discriminate H.
Defined.

(** ** Writes on a store configured without fields *)




(** ** The quality node *)

Lemma find_docs_length (E : environment) (docs : list document) (q : query)
  (text : option string) (offset n : nat) :
  0 < n -> List.length (find_docs E docs q text offset n) <= n.
Proof.
  intros Hn. unfold find_docs. destruct n; [lia |].
  apply firstn_le_length.
Qed.

(** With a positive limit, a search on a well-formed store returns, leaves
    the world as it is, and gives at most [limit] items, in either mode. *)
Lemma search_length (E : environment) (self : MongoDBBaseStore)
  (namespace_prefix : namespace) (qry : option string)
  (flt : option (list (string * pyvalue))) (limit offset : nat)
  (refresh_ttl : option bool) (w : world) :
  well_formed self ->
  0 < limit ->
  exists items,
    search E self namespace_prefix qry flt limit offset refresh_ttl w
    = (Returns items, w) /\
    List.length items <= limit.
Proof.
  intros Hwf Hlimit. destruct (semantic_enabled self) eqn:Hsem.
  - destruct (Hwf Hsem) as [f Hf].
    rewrite (search_semantic_run E self f) by assumption.
    rewrite fallback_fill_run.
    set (docs := vector_docs E self f namespace_prefix qry flt limit offset w).
    pose proof (vector_docs_length E self f namespace_prefix qry flt limit offset w)
      as Hdocs. fold docs in Hdocs.
    eexists. split; [reflexivity |].
    destruct (Nat.ltb (List.length (map search_item_of docs)) limit) eqn:Hlt.
    + destruct (fallback_loop_adds limit
                  (find_docs E (collection w) (text_query namespace_prefix qry flt)
                     (text_of qry) offset
                     (limit - List.length (map search_item_of docs)))
                  (map search_item_of docs) (seen_after docs []))
        as (added & Heq & _ & _ & _ & Hlen).
      rewrite Heq. apply Hlen. apply Nat.ltb_lt. exact Hlt.
    + rewrite length_map. exact Hdocs.
  - unfold search. rewrite Hsem. unfold find_cursor, bind, ret.
    eexists. split; [reflexivity |].
    rewrite length_map. apply find_docs_length. exact Hlimit.
Qed.

(** [quality_node] reads the message before the last one and fails with an
    [IndexError], before it touches the store, when there are fewer than two
    messages.  Otherwise, on a well-formed store, it hands the chain at most
    three past articles, found by a search under [("articles",)] for that
    message's content, leaves the store as it is, and sends one message
    named ["quality_node"], with the chain's answer, to ["supervisor_node"]. *)
Theorem quality_node_hands_over_three_articles (E : environment)
  (quality_chain : list Message -> list SearchItem -> Message)
  (messages : list Message) (store : MongoDBBaseStore) (w : world) :
  well_formed store ->
  (List.length messages < 2 ->
   quality_node E quality_chain messages store w = (NodeRaises IndexError, w)) /\
  (2 <= List.length messages ->
   exists m past_articles,
     nth_error messages (List.length messages - 2) = Some m /\
     search E store ["articles"] (Some (content m)) None 3 0 None w
     = (Returns past_articles, w) /\
     List.length past_articles <= 3 /\
     quality_node E quality_chain messages store w
     = (NodeReturns
          {| goto := "supervisor_node";
             update_messages :=
               [{| content := content (quality_chain messages past_articles);
                   name := Some "quality_node" |}] |}, w)).
Proof.
  intros Hwf. unfold quality_node, second_to_last. split.
  - intros Hlen.
    replace (Nat.ltb (List.length messages) 2) with true
      by (symmetry; apply Nat.ltb_lt; exact Hlen).
    reflexivity.
  - intros Hlen.
    replace (Nat.ltb (List.length messages) 2) with false
      by (symmetry; apply Nat.ltb_ge; exact Hlen).
    destruct (nth_error messages (List.length messages - 2)) as [m|] eqn:Hm.
    + destruct (search_length E store ["articles"] (Some (content m)) None 3 0
                  None w Hwf) as (past & Hsearch & Hpast); [lia |].
      exists m, past. rewrite Hsearch. repeat split; assumption.
    + apply nth_error_None in Hm. lia.
Qed.

Lemma quality_node_hands_over_three_articles_witness :
  well_formed Scenario.semantic_store /\
  2 <= List.length [{| content := "write about SEBI"; name := None |};
                    {| content := "SEBI margin rules draft"; name := Some "writer_node" |};
                    {| content := "Passing to quality checker..."; name := Some "supervisor_node" |}] /\
  exists m past_articles,
    nth_error [{| content := "write about SEBI"; name := None |};
               {| content := "SEBI margin rules draft"; name := Some "writer_node" |};
               {| content := "Passing to quality checker..."; name := Some "supervisor_node" |}]
      1 = Some m /\
    search Scenario.env Scenario.semantic_store ["articles"] (Some (content m))
      None 3 0 None Scenario.world_AB = (Returns past_articles, Scenario.world_AB) /\
    List.length past_articles <= 3 /\
    quality_node Scenario.env (fun _ past => {| content := "approved"; name := None |})
      [{| content := "write about SEBI"; name := None |};
       {| content := "SEBI margin rules draft"; name := Some "writer_node" |};
       {| content := "Passing to quality checker..."; name := Some "supervisor_node" |}]
      Scenario.semantic_store Scenario.world_AB
    = (NodeReturns
         {| goto := "supervisor_node";
            update_messages := [{| content := "approved"; name := Some "quality_node" |}] |},
       Scenario.world_AB).
Proof.
  assert (well_formed Scenario.semantic_store) as Hwf.
  { intros _. exists Scenario.embed_text. reflexivity. }
  split; [exact Hwf | split; [simpl; lia |]].
  destruct (quality_node_hands_over_three_articles Scenario.env
              (fun _ past => {| content := "approved"; name := None |})
              [{| content := "write about SEBI"; name := None |};
               {| content := "SEBI margin rules draft"; name := Some "writer_node" |};
               {| content := "Passing to quality checker..."; name := Some "supervisor_node" |}]
              Scenario.semantic_store Scenario.world_AB Hwf) as [_ H].
  apply H. simpl. lia.
Defined.

(** ** Ops of one batch see each other *)

(** Within one batch a get sees the put before it: the put's slot is [None]
    and the get, asked for the UUID the put drew, gets the record just
    written, provided no older document has that namespace and UUID. *)
Theorem batch_get_sees_earlier_put (E : environment) (self : MongoDBBaseStore)
  (ns : namespace) (k : string) (v : pyvalue) (index : option index_arg)
  (ttl : ttl_arg) (refresh_ttl : option bool) (w : world) :
  well_formed self ->
  (forall doc, In doc (collection w) ->
               d_namespace doc = ns -> d_key doc <> uuid4 E (uuids w)) ->
  fst (batch E self
         [PutOp ns k (Some v) index ttl;
          GetOp ns (uuid4 E (uuids w)) refresh_ttl] w)
  = Returns
      [ResNone;
       ResItem {| value := v; key := k; item_namespace := ns;
                  created_at := Some (utcnow E (ticks w));
                  updated_at := Some (utcnow E (ticks w)) |}].
Proof.
  intros Hwf Hold.
  destruct (put_inserts E self ns k v index ttl w Hwf)
    as (doc & w' & Hput & Hcoll & _ & Hns & Hkey & Hlk & Hv & Hcr & _).
  assert (find (matches E (_namespace_query ns ++ [KeyIs (uuid4 E (uuids w))]))
            (collection w') = Some doc) as Hfind.
  { rewrite Hcoll. apply find_app_last.
    - intros d Hd. destruct (matches E _ d) eqn:Hm; [|reflexivity].
      apply key_query_matches in Hm as [Hdn Hdk].
      exfalso. exact (Hold d Hd Hdn Hdk).
    - apply key_query_matches. split; assumption. }
  pose proof (get_found E self ns (uuid4 E (uuids w)) refresh_ttl w' doc Hfind)
    as Hget.
  unfold batch. simpl. unfold bind at 1. unfold bind at 1. rewrite Hput.
  unfold ret at 1. unfold bind at 1. unfold bind at 1.
  destruct (get E self ns (uuid4 E (uuids w)) refresh_ttl w') as [[r|e] w2];
    simpl in Hget; [|discriminate Hget].
  injection Hget as Hr. rewrite Hr.
  unfold ret. simpl. unfold item_of, doc_key.
  rewrite Hlk, Hv, Hns, Hcr. reflexivity.
Qed.

Lemma batch_get_sees_earlier_put_witness :
  well_formed Scenario.semantic_store /\
  fst (batch Scenario.env Scenario.semantic_store
         [PutOp ["articles"] "a1" (Some Scenario.article_B) None NOT_PROVIDED;
          GetOp ["articles"] "6fa459ea-ee8a-4ca4-894e-db77e160355e" None]
         Scenario.world_A)
  = Returns
      [ResNone;
       ResItem {| value := Scenario.article_B; key := "a1";
                  item_namespace := ["articles"];
                  created_at := Some 1700000002000000%Z;
                  updated_at := Some 1700000002000000%Z |}].
Proof.
  assert (well_formed Scenario.semantic_store) as Hwf.
  { intros _. exists Scenario.embed_text. reflexivity. }
  split; [exact Hwf |].
  apply (batch_get_sees_earlier_put Scenario.env Scenario.semantic_store
           ["articles"] "a1" Scenario.article_B None NOT_PROVIDED None
           Scenario.world_A Hwf).
  intros doc [<- | []] _ H. discriminate H.
Defined.
